(** * gaba: utility functions and the keyring controller

    A shallow embedding of [src/util.ts] (hex and big-number helpers,
    message normalisation, typed-message validation, [safelyExecute]) and a
    model of the keyring controller that [tests/KeyringController.test.ts]
    exercises.

    JavaScript strings are sequences of UTF-16 code units; a code unit is a
    number in [N].  Bytes of a [Buffer] are numbers in [N] as well. *)

From Stdlib Require Import NArith ZArith List Bool Lia String Ascii.
From Stdlib Require QArith.
Import ListNotations.

Set Implicit Arguments.
Set Warnings "-register-all".

(* ================================================================= *)
(** * JavaScript strings *)
(* ================================================================= *)

Module JS.

Local Open Scope N_scope.

Definition jsstring := list N.

(** A literal: every character of an ASCII string is one code unit. *)
Definition js (s : string) : jsstring :=
  List.map N_of_ascii (list_ascii_of_string s).

(** [/[0-9A-Fa-f]/] on one code unit. *)
Definition isHexDigit (c : N) : bool :=
  ((48 <=? c) && (c <=? 57)) || ((65 <=? c) && (c <=? 70)) ||
  ((97 <=? c) && (c <=? 102)).

(** The character of a digit below sixteen, lower case, as
    [Number.prototype.toString(16)] and [Buffer.toString('hex')] print it. *)
Definition hexChar (d : N) : N := if d <? 10 then 48 + d else 87 + d.

(** [str.slice(0, 2) === '0x'] (package is-hex-prefixed). *)
Definition isHexPrefixed (str : jsstring) : bool :=
  match str with
  | c0 :: c1 :: _ => (c0 =? 48) && (c1 =? 120)
  | _ => false
  end.

(** [stripHexPrefix]: [isHexPrefixed(str) ? str.slice(2) : str]. *)
Definition stripHexPrefix (str : jsstring) : jsstring :=
  if isHexPrefixed str then skipn 2 str else str.

(** [addHexPrefix]: [isHexPrefixed(str) ? str : '0x' + str]. *)
Definition addHexPrefix (str : jsstring) : jsstring :=
  if isHexPrefixed str then str else js "0x" ++ str.

(** ** Buffers *)

Definition isHighSurrogate (c : N) : bool := (0xD800 <=? c) && (c <=? 0xDBFF).
Definition isLowSurrogate (c : N) : bool := (0xDC00 <=? c) && (c <=? 0xDFFF).

(** U+FFFD, what an unpaired surrogate is encoded as. *)
Definition replacementBytes : list N := [0xEF; 0xBF; 0xBD].

Definition utf8Bytes3 (c : N) : list N :=
  [0xE0 + c / 4096; 0x80 + (c / 64) mod 64; 0x80 + c mod 64].

Definition utf8Bytes4 (hi lo : N) : list N :=
  let cp := 0x10000 + (hi - 0xD800) * 1024 + (lo - 0xDC00) in
  [0xF0 + cp / 262144; 0x80 + (cp / 4096) mod 64;
   0x80 + (cp / 64) mod 64; 0x80 + cp mod 64].

(** [Buffer.from(data, 'utf8')]: the UTF-8 bytes of a string of UTF-16 code
    units. *)
Fixpoint bufferFromUtf8 (data : jsstring) : list N :=
  match data with
  | [] => []
  | c :: rest =>
      if c <? 0x80 then c :: bufferFromUtf8 rest
      else if c <? 0x800 then
        (0xC0 + c / 64) :: (0x80 + c mod 64) :: bufferFromUtf8 rest
      else if isHighSurrogate c then
        match rest with
        | d :: rest' =>
            if isLowSurrogate d then utf8Bytes4 c d ++ bufferFromUtf8 rest'
            else replacementBytes ++ bufferFromUtf8 rest
        | [] => replacementBytes
        end
      else if isLowSurrogate c then replacementBytes ++ bufferFromUtf8 rest
      else utf8Bytes3 c ++ bufferFromUtf8 rest
  end.

(** Two lower-case hex digits per byte: [buf.toString('hex')]. *)
Definition byteToHex (b : N) : jsstring :=
  [hexChar ((b / 16) mod 16); hexChar (b mod 16)].

Definition bufferToStringHex (buf : list N) : jsstring :=
  flat_map byteToHex buf.

(** [bufferToHex(buf)]: ['0x' + buf.toString('hex')]. *)
Definition bufferToHex (buf : list N) : jsstring :=
  js "0x" ++ bufferToStringHex buf.

(** ** Values *)

(** A JavaScript value, as far as the validators look at one.  A number is
    an integer or [NaN]. *)
Inductive JsValue : Type :=
  | JsUndefined
  | JsNull
  | JsBool (b : bool)
  | JsNumber (z : Z)
  | JsNaN
  | JsString (s : jsstring)
  | JsArray (items : list JsValue)
  | JsObject (fields : list (jsstring * JsValue)).

(** [ToBoolean]: what [!v] negates. *)
Definition truthy (v : JsValue) : bool :=
  match v with
  | JsUndefined | JsNull | JsNaN => false
  | JsBool b => b
  | JsNumber z => negb (z =? 0)%Z
  | JsString s => match s with [] => false | _ :: _ => true end
  | JsArray _ | JsObject _ => true
  end.

(** [typeof v === 'string']. *)
Definition isString (v : JsValue) : bool :=
  match v with JsString _ => true | _ => false end.

(** [Array.isArray(v)]. *)
Definition isArray (v : JsValue) : bool :=
  match v with JsArray _ => true | _ => false end.

(** [new Error(message)]. *)
Record JsError : Type := mkError { message : jsstring }.

(** How a call ends: it returns or it throws. *)
Inductive Completion (A : Type) : Type :=
  | Normal (a : A)
  | Throw (e : JsError).

Arguments Normal {A} a.
Arguments Throw {A} e.

(** The double quote inside a message. *)
Definition dquote : jsstring := [34].

(** [isValidAddress] of ethereumjs-util:
    [/^0x[0-9a-fA-F]{40}$/.test(address)]. *)
Definition isValidAddress (address : jsstring) : bool :=
  isHexPrefixed address &&
  (List.length (skipn 2 address) =? 40)%nat &&
  forallb isHexDigit (skipn 2 address).

End JS.

(* ================================================================= *)
(** * Big numbers (bn.js, re-exported by ethereumjs-util) *)
(* ================================================================= *)

Module BN.

Import JS.

(** A [BN] holds an integer of any size: [Z]. *)
Definition BN := Z.

Local Open Scope N_scope.

(** The digits of a positive magnitude, most significant first.  The loop of
    [toString] runs once per digit; [fuel] bounds it. *)
Fixpoint hexDigits (fuel : nat) (n : N) : jsstring :=
  match fuel with
  | O => []
  | S fuel' =>
      if n <? 16 then [hexChar n]
      else hexDigits fuel' (n / 16) ++ [hexChar (n mod 16)]
  end.

(** The magnitude in base sixteen, no leading zero, ["0"] for zero. *)
Definition magnitudeToString16 (n : N) : jsstring :=
  hexDigits (S (N.to_nat (N.size n))) n.

(** [bn.toString(16)]: a minus sign before the magnitude of a negative
    number. *)
Definition toString16 (b : BN) : jsstring :=
  if (b <? 0)%Z then 45 :: magnitudeToString16 (Z.abs_N b)
  else magnitudeToString16 (Z.abs_N b).

(** The value [parseHex] gives one character: ['a'-'f'], ['A'-'F'], and
    for anything else the low four bits of [c - 48]. *)
Definition hexDigitValue (c : N) : N :=
  let d := (Z.of_N c - 48)%Z in
  if ((49 <=? d) && (d <=? 54))%Z then Z.to_N (d - 49 + 10)
  else if ((17 <=? d) && (d <=? 22))%Z then Z.to_N (d - 17 + 10)
  else Z.to_N (Z.land d 15).

(** [r <<= 4; r |= digit] over the characters, left to right. *)
Definition parseHex (str : jsstring) : N :=
  fold_left (fun r c => N.lor (N.shiftl r 4) (hexDigitValue c)) str 0.

(** [/\s/] on one code unit. *)
Definition isWhitespace (c : N) : bool :=
  ((9 <=? c) && (c <=? 13)) || (c =? 32) || (c =? 0xA0) || (c =? 0x1680) ||
  ((0x2000 <=? c) && (c <=? 0x200A)) || (c =? 0x2028) || (c =? 0x2029) ||
  (c =? 0x202F) || (c =? 0x205F) || (c =? 0x3000) || (c =? 0xFEFF).

(** [new BN(str, 16)]: white space is dropped
    ([number.toString().replace(/\s+/g, '')]), then an optional leading
    minus sign, then hex digits.  For a string that holds no digit at all
    (empty after the white space, or the minus sign alone) bn.js leaves a
    number with no word, which is no integer; the value here is 0 and
    nothing below is stated of such a string. *)
Definition ofString16 (str : jsstring) : BN :=
  let number := filter (fun c => negb (isWhitespace c)) str in
  match number with
  | c :: rest =>
      if c =? 45 then (- Z.of_N (parseHex rest))%Z
      else Z.of_N (parseHex number)
  | [] => Z.of_N (parseHex number)
  end.

End BN.

(* ================================================================= *)
(** * src/util.ts *)
(* ================================================================= *)

Module Util.

Import JS.

Local Open Scope N_scope.

(** [const hexRe = /^[0-9A-Fa-f]+$/g], as [String.prototype.match] uses it:
    [match] resets a global expression's [lastIndex], so the outcome depends
    on the string alone.  [true] stands for a match (a non-null result). *)
Definition hexRe (s : jsstring) : bool :=
  match s with
  | [] => false
  | _ :: _ => forallb isHexDigit s
  end.

(** [BNToHex(inputBn)]: [addHexPrefix(inputBn.toString(16))]. *)
Definition BNToHex (inputBn : BN.BN) : jsstring :=
  addHexPrefix (BN.toString16 inputBn).

(** [hexToBN(inputHex)]: [new BN(stripHexPrefix(inputHex), 16)]. *)
Definition hexToBN (inputHex : jsstring) : BN.BN :=
  BN.ofString16 (stripHexPrefix inputHex).

(** [normalizeMessageData(data)].  Nothing in the [try] block throws on a
    string, so the [catch] is never entered. *)
Definition normalizeMessageData (data : jsstring) : jsstring :=
  let stripped := stripHexPrefix data in
  if hexRe stripped then addHexPrefix stripped
  else bufferToHex (bufferFromUtf8 data).

(** ** Typed-message validation *)

(** [interface TypedMessageParams]: the fields the validators read. *)
Record TypedMessageParams : Type := mkParams {
  data : JsValue;
  from : JsValue
}.

(** [sigUtil.typedSignatureHash(typedData)] of eth-sig-util: it throws on an
    empty array before it hashes anything; [None] stands for a throw.
    [hashEntries] is the hashing of the entries of a non-empty array (it
    throws on an entry it cannot encode). *)
Definition typedSignatureHash (Hash : Type)
    (hashEntries : list JsValue -> option Hash) (typedData : list JsValue)
    : option Hash :=
  match typedData with
  | [] => None
  | _ :: _ => hashEntries typedData
  end.

Section Validation.

(** What a template literal prints for a value. *)
Variable toStr : JsValue -> jsstring.

(** The hash of eth-sig-util, over the entries of a non-empty array. *)
Variable Hash : Type.
Variable hashEntries : list JsValue -> option Hash.

(** [JSON.parse]; [None] stands for a [SyntaxError]. *)
Variable JSON_parse : jsstring -> option JsValue.

(** [jsonschema.validate(data, sigUtil.TYPED_MESSAGE_SCHEMA).errors]. *)
Variable SchemaError : Type.
Variable schemaErrors : JsValue -> list SchemaError.

Definition invalidFrom (v : JsValue) : JsError :=
  mkError (js "Invalid " ++ dquote ++ js "from" ++ dquote ++ js " address: "
           ++ toStr v ++ js " must be a valid string.").

Definition invalidData (v : JsValue) : JsError :=
  mkError (js "Invalid message " ++ dquote ++ js "data" ++ dquote ++ js ": "
           ++ toStr v ++ js " must be a valid array.").

(** [!from || typeof from !== 'string' || !isValidAddress(from)] *)
Definition fromIsInvalid (v : JsValue) : bool :=
  negb (truthy v) || negb (isString v) ||
  negb (match v with JsString s => isValidAddress s | _ => false end).

Definition validateTypedSignMessageDataV1 (messageData : TypedMessageParams)
    : Completion unit :=
  if fromIsInvalid (from messageData) then
    Throw (invalidFrom (from messageData))
  else if negb (truthy (data messageData)) || negb (isArray (data messageData))
  then Throw (invalidData (data messageData))
  else
    match data messageData with
    | JsArray items =>
        match typedSignatureHash hashEntries items with
        | Some _ => Normal tt
        | None => Throw (mkError (js "Expected EIP712 typed data."))
        end
    | _ => Throw (invalidData (data messageData))
    end.

Definition validateTypedSignMessageDataV3 (messageData : TypedMessageParams)
    : Completion unit :=
  if fromIsInvalid (from messageData) then
    Throw (invalidFrom (from messageData))
  else if negb (truthy (data messageData)) || negb (isString (data messageData))
  then Throw (invalidData (data messageData))
  else
    match data messageData with
    | JsString text =>
        match JSON_parse text with
        | None =>
            Throw (mkError (js "Data must be passed as a valid JSON string."))
        | Some parsed =>
            if (0 <? List.length (schemaErrors parsed))%nat then
              Throw (mkError (js "Data must conform to EIP-712 schema. See https://git.io/fNtcx."))
            else Normal tt
        end
    | _ => Throw (invalidData (data messageData))
    end.

End Validation.

(** ** safelyExecute *)

(** How a promise ends.  [Pending] is a promise that never settles. *)
Inductive Promise (A E : Type) : Type :=
  | Fulfilled (a : A)
  | Rejected (e : E)
  | Pending.

Arguments Fulfilled {A E} a.
Arguments Rejected {A E} e.
Arguments Pending {A E}.

(** A call of a callback: it returns a value or throws. *)
Inductive Outcome (A E : Type) : Type :=
  | Returns (a : A)
  | Throws (e : E).

Arguments Returns {A E} a.
Arguments Throws {A E} e.

Section SafelyExecute.

(** Values an operation resolves with, values that are thrown, and the part
    of the program state that callbacks read and write. *)
Variables V E Heap : Type.

(** The state callbacks run in: what [console.error] has printed so far,
    and the rest. *)
Record World : Type := mkWorld {
  console : list E;
  heap : Heap
}.

Definition console_error (error : E) (w : World) : World :=
  mkWorld (console w ++ [error]) (heap w).

(** [operation: () => Promise<any>]: the call returns a promise or throws. *)
Definition Operation : Type := World -> Outcome (Promise V E) E * World.

(** [retry?: (error: Error) => void] *)
Definition Retry : Type := E -> World -> Outcome unit E * World.

(** The [catch] block: log when asked, then [retry && retry(error)]. *)
Definition onError (logError : bool) (retry : option Retry) (error : E)
    (w : World) : Promise (option V) E * World :=
  let w1 := if logError then console_error error w else w in
  match retry with
  | None => (Fulfilled None, w1)
  | Some r =>
      match r error w1 with
      | (Returns _, w2) => (Fulfilled None, w2)
      | (Throws e, w2) => (Rejected e, w2)
      end
  end.

(** [safelyExecute(operation, logError, retry)]: the promise the [async]
    function returns, [None] for [undefined]. *)
Definition safelyExecute (operation : Operation) (logError : bool)
    (retry : option Retry) (w : World) : Promise (option V) E * World :=
  match operation w with
  | (Returns (Fulfilled v), w1) => (Fulfilled (Some v), w1)
  | (Returns Pending, w1) => (Pending, w1)
  | (Returns (Rejected error), w1) => onError logError retry error w1
  | (Throws error, w1) => onError logError retry error w1
  end.

End SafelyExecute.

End Util.

(* ================================================================= *)
(** * The keyring controller *)
(* ================================================================= *)

(** [src/keyring/KeyringController.ts] is exercised by
    [tests/KeyringController.test.ts]; the definitions of this module follow
    the specification of the controller: its data model, its state machine,
    its operations and its error taxonomy.  The operations that read the
    state without changing it and that no property below speaks of (the
    exports, [signMessage], [signPersonalMessage], [signTransaction]) are
    left out: they add no reachable state. *)

Module KeyringController.

Import JS.

Definition address := jsstring.
Definition password := jsstring.

Definition jsstring_eq_dec : forall a b : jsstring, {a = b} + {a <> b} :=
  list_eq_dec N.eq_dec.

(** [a === b] on strings: the same code units in the same order. *)
Fixpoint jsstring_eqb (a b : jsstring) : bool :=
  match a, b with
  | [], [] => true
  | x :: a', y :: b' => (x =? y)%N && jsstring_eqb a' b'
  | _, _ => false
  end.

(** Modelled from the spec: the type tag of a keyring, an enumeration (HD
    derived tree, raw imported pair); the tags are the strings the test
    compares with. *)
Inductive KeyringType : Type := HdKeyTree | SimpleKeyPair.

Definition typeTag (t : KeyringType) : jsstring :=
  match t with
  | HdKeyTree => js "HD Key Tree"
  | SimpleKeyPair => js "Simple Key Pair"
  end.

(** Modelled from the spec: the secret material a keyring owns, a seed
    phrase or a raw private key. *)
Inductive Secret : Type :=
  | Mnemonic (phrase : jsstring)
  | RawKey (key : jsstring).

(** Modelled from the spec: a keyring, its type tag, its ordered accounts
    and its secret; [derived] counts the accounts derived so far, the index
    of the next one. *)
Record Keyring : Type := mkKeyring {
  ktype : KeyringType;
  accounts : list address;
  secret : Secret;
  derived : nat
}.

(** Modelled from the spec: PublicState, [{ isUnlocked, keyringTypes,
    keyrings: sequence of {type, accounts} }]. *)
Record PublicKeyring : Type := mkPublicKeyring {
  type : jsstring;
  publicAccounts : list address
}.

Record PublicState : Type := mkPublicState {
  isUnlocked : bool;
  keyringTypes : list jsstring;
  keyrings : list PublicKeyring
}.

(** Modelled from the spec: the error taxonomy of section 7. *)
Inductive ErrorKind : Type :=
  | ValidationError
  | CryptoError
  | NotFoundError
  | StateError.

Record Error : Type := mkError { kind : ErrorKind; errorMessage : jsstring }.

Inductive Result (A : Type) : Type :=
  | Ok (a : A)
  | Err (e : Error).

Arguments Ok {A} a.
Arguments Err {A} e.

Definition bind {A B : Type} (r : Result A) (k : A -> Result B) : Result B :=
  match r with
  | Ok a => k a
  | Err e => Err e
  end.

Notation "x <- r ;; k" := (bind r (fun x => k))
  (at level 61, r at next level, right associativity).

(** Modelled from the spec: the state machine, Locked or Unlocked; the
    password the vault is re-encrypted under is in memory while Unlocked. *)
Inductive LockState : Type :=
  | Locked
  | Unlocked (pw : password).

(** Modelled from the spec: the versions [signTypedMessage] dispatches on. *)
Inductive TypedVersion : Type := V1 | V3.

(** Modelled from the spec: the closed set of import strategies with the
    arguments of each. *)
Inductive ImportRequest : Type :=
  | PrivateKeyStrategy (args : list jsstring)
  | JsonStrategy (json : jsstring) (pw : password).

Record TypedParams : Type := mkTypedParams {
  data : JsValue;
  from : address
}.

(** Modelled from the spec: the fixed context tag of typed-signing
    failures; the test looks for it without the space. *)
Definition contextTag : jsstring := js "Keyring Controller signTypedMessage: ".

Definition publicKeyring (k : Keyring) : PublicKeyring :=
  mkPublicKeyring (typeTag (ktype k)) (accounts k).

Definition owns (addr : address) (k : Keyring) : bool :=
  existsb (jsstring_eqb addr) (accounts k).

(** Modelled from the spec: the step of [removeAccount] on the keyring
    sequence.  The first keyring whose accounts hold [addr] loses it; when
    that leaves it empty and it is not the primary keyring (the first of
    the sequence), the keyring goes too.  [None]: no keyring holds [addr]. *)
Fixpoint removeFrom (isPrimary : bool) (ks : list Keyring) (addr : address)
    : option (list Keyring) :=
  match ks with
  | [] => None
  | k :: rest =>
      if owns addr k then
        let left := filter (fun a => negb (jsstring_eqb addr a)) (accounts k) in
        match left with
        | [] =>
            if isPrimary
            then Some (mkKeyring (ktype k) left (secret k) (derived k) :: rest)
            else Some rest
        | _ :: _ => Some (mkKeyring (ktype k) left (secret k) (derived k) :: rest)
        end
      else option_map (cons k) (removeFrom false rest addr)
  end.

(** Modelled from the spec: the crypto provider contract of section 6, an
    injected interface: vault encryption, account derivation, decryption of
    an encrypted key file, typed-data signing.  A failure ([inl]) carries
    the provider's message. *)
Class Provider : Type := {
  Blob : Type;
  encrypt : list Keyring -> password -> Blob;
  decrypt : Blob -> password -> jsstring + list Keyring;
  deriveAccount : Secret -> nat -> address;
  decryptKeyfile : jsstring -> password -> jsstring + jsstring;
  signTyped :
    TypedVersion -> JsValue -> Secret -> address -> jsstring + jsstring
}.

(** Modelled from the spec: what the controller validates input with (the
    validation code is missing with the controller): the tests of a well-formed
    seed phrase and of a validly hex-encoded private key; for typed data
    the structured-data hash of V1, and for V3 the JSON parser and the
    errors of the EIP-712 schema; and the messages the spec fixes no text
    for. *)
Class Validation : Type := {
  isValidMnemonic : jsstring -> bool;
  isValidPrivateKey : jsstring -> bool;
  Hash : Type;
  hashEntries : list JsValue -> option Hash;
  JSON_parse : jsstring -> option JsValue;
  SchemaError : Type;
  schemaErrors : JsValue -> list SchemaError;
  lockedText : jsstring;
  noVaultText : jsstring;
  notFoundText : jsstring;
  seedText : jsstring;
  typedDataText : jsstring
}.

Section Controller.

Context {provider : Provider} {validation : Validation}.

(** Modelled from the spec: the controller, its lock state, the in-memory
    keyring sequence and the persisted vault. *)
Record State : Type := mkState {
  lock : LockState;
  memKeyrings : list Keyring;
  vault : option Blob
}.

Definition initialState : State := mkState Locked [] None.

(** Modelled from the spec: PublicState is recomputed from the live keyring
    sequence; [isUnlocked] is the state of the state machine. *)
Definition publicState (st : State) : PublicState :=
  mkPublicState
    (match lock st with Unlocked _ => true | Locked => false end)
    [typeTag HdKeyTree; typeTag SimpleKeyPair]
    (map publicKeyring (memKeyrings st)).

Definition isUnlockedNow (st : State) : bool := isUnlocked (publicState st).

(** Modelled from the spec: operations other than vault creation and
    password submission fail with a StateError while Locked. *)
Definition requireUnlocked (st : State) : Result password :=
  match lock st with
  | Unlocked pw => Ok pw
  | Locked => Err (mkError StateError lockedText)
  end.

(** Modelled from the spec: the last two steps of every mutating operation,
    re-encrypt and persist the vault, publish the new PublicState. *)
Definition persist (pw : password) (ks : list Keyring)
    : Result (PublicState * State) :=
  let st' := mkState (Unlocked pw) ks (Some (encrypt ks pw)) in
  Ok (publicState st', st').

Definition primaryKeyring (s : Secret) : Keyring :=
  mkKeyring HdKeyTree [deriveAccount s 0] s 1.

(** Modelled from the spec: [createNewVaultAndKeychain(password)]; the fresh
    entropy is the argument [entropy]. *)
Definition createNewVaultAndKeychain (pw : password) (entropy : jsstring)
    (st : State) : Result (PublicState * State) :=
  persist pw [primaryKeyring (Mnemonic entropy)].

(** Modelled from the spec: [createNewVaultAndRestore(password, seedPhrase)]. *)
Definition createNewVaultAndRestore (pw : password) (seedPhrase : jsstring)
    (st : State) : Result (PublicState * State) :=
  if isValidMnemonic seedPhrase
  then persist pw [primaryKeyring (Mnemonic seedPhrase)]
  else Err (mkError ValidationError seedText).

(** Modelled from the spec: [submitPassword(password)]. *)
Definition submitPassword (pw : password) (st : State)
    : Result (PublicState * State) :=
  match vault st with
  | None => Err (mkError StateError noVaultText)
  | Some blob =>
      match decrypt blob pw with
      | inl msg => Err (mkError CryptoError msg)
      | inr ks =>
          let st' := mkState (Unlocked pw) ks (vault st) in
          Ok (publicState st', st')
      end
  end.

(** Modelled from the spec: [setLocked()]. *)
Definition setLocked (st : State) : State := mkState Locked [] (vault st).

(** Modelled from the spec: [addNewAccount()]. *)
Definition addNewAccount (st : State) : Result (PublicState * State) :=
  pw <- requireUnlocked st ;;
  match memKeyrings st with
  | [] => Err (mkError StateError notFoundText)
  | k :: rest =>
      let a := deriveAccount (secret k) (derived k) in
      persist pw
        (mkKeyring (ktype k) (accounts k ++ [a]) (secret k) (S (derived k))
         :: rest)
  end.

Definition importedKeyring (key : jsstring) : Keyring :=
  mkKeyring SimpleKeyPair [deriveAccount (RawKey key) 0] (RawKey key) 1.

Definition appendKeyring (pw : password) (key : jsstring) (st : State)
    : Result (PublicState * State) :=
  persist pw (memKeyrings st ++ [importedKeyring key]).

(** Modelled from the spec: [importAccountWithStrategy(strategy, args)]. *)
Definition importAccountWithStrategy (req : ImportRequest) (st : State)
    : Result (PublicState * State) :=
  match req with
  | PrivateKeyStrategy args =>
      match args with
      | [] => Err (mkError ValidationError (js "Cannot import an empty key."))
      | [] :: _ =>
          Err (mkError ValidationError (js "Cannot import an empty key."))
      | key :: _ =>
          if isValidPrivateKey key then
            pw <- requireUnlocked st ;;
            appendKeyring pw key st
          else
            Err (mkError ValidationError
                         (js "Cannot import invalid private key."))
      end
  | JsonStrategy json filePw =>
      pw <- requireUnlocked st ;;
      match decryptKeyfile json filePw with
      | inl msg => Err (mkError CryptoError msg)
      | inr key => appendKeyring pw key st
      end
  end.

(** Modelled from the spec: [removeAccount(address)]. *)
Definition removeAccount (addr : address) (st : State)
    : Result (PublicState * State) :=
  pw <- requireUnlocked st ;;
  match removeFrom true (memKeyrings st) addr with
  | None => Err (mkError NotFoundError notFoundText)
  | Some ks => persist pw ks
  end.



(** Modelled from the spec: what [signTypedMessage] checks before signing.
    V1: the payload is a sequence of entries whose structured-data hash can
    be computed.  V3: the payload is a string that parses as JSON to a value
    with no error against the EIP-712 schema. *)
Definition typedPayloadOk (version : TypedVersion) (payload : JsValue) : bool :=
  match version, payload with
  | V1, JsArray items =>
      match Util.typedSignatureHash hashEntries items with
      | Some _ => true
      | None => false
      end
  | V3, JsString text =>
      match JSON_parse text with
      | Some parsed =>
          match schemaErrors parsed with [] => true | _ :: _ => false end
      | None => false
      end
  | _, _ => false
  end.

Definition locate (addr : address) (st : State) : Result Keyring :=
  match find (owns addr) (memKeyrings st) with
  | Some k => Ok k
  | None => Err (mkError NotFoundError notFoundText)
  end.

Definition signTypedUnwrapped (params : TypedParams) (version : TypedVersion)
    (st : State) : Result jsstring :=
  _ <- (if typedPayloadOk version (data params) then Ok tt
        else Err (mkError ValidationError typedDataText)) ;;
  _ <- requireUnlocked st ;;
  k <- locate (from params) st ;;
  match signTyped version (data params) (secret k) (from params) with
  | inl msg => Err (mkError CryptoError msg)
  | inr signature => Ok signature
  end.

(** Modelled from the spec: [signTypedMessage(params, version)]; any failure
    is wrapped into one error whose message starts with the context tag. *)
Definition signTypedMessage (params : TypedParams) (version : TypedVersion)
    (st : State) : Result jsstring :=
  match signTypedUnwrapped params version st with
  | Ok signature => Ok signature
  | Err e => Err (mkError (kind e) (contextTag ++ errorMessage e))
  end.

(** ** Reachable states *)

(** Modelled from the spec: the operations that change the state, as
    actions; a state is reachable when a sequence of them leads to it from
    the initial state (Locked, no keyring, no vault). *)

Inductive Action : Type :=
  | DoCreateNewVaultAndKeychain (pw : password) (entropy : jsstring)
  | DoCreateNewVaultAndRestore (pw : password) (seedPhrase : jsstring)
  | DoSubmitPassword (pw : password)
  | DoSetLocked
  | DoAddNewAccount
  | DoImport (req : ImportRequest)
  | DoRemoveAccount (addr : address).

(** A failed operation leaves the state as it was. *)
Definition stateAfter (r : Result (PublicState * State)) (st : State) : State :=
  match r with
  | Ok (_, st') => st'
  | Err _ => st
  end.

(** What the caller gets: the PublicState the promise resolves with, or the
    error it rejects with. *)
Definition published (r : Result (PublicState * State)) : Result PublicState :=
  match r with
  | Ok (ps, _) => Ok ps
  | Err e => Err e
  end.

Definition run (a : Action) (st : State) : State :=
  match a with
  | DoCreateNewVaultAndKeychain pw entropy =>
      stateAfter (createNewVaultAndKeychain pw entropy st) st
  | DoCreateNewVaultAndRestore pw seedPhrase =>
      stateAfter (createNewVaultAndRestore pw seedPhrase st) st
  | DoSubmitPassword pw => stateAfter (submitPassword pw st) st
  | DoSetLocked => setLocked st
  | DoAddNewAccount => stateAfter (addNewAccount st) st
  | DoImport req => stateAfter (importAccountWithStrategy req st) st
  | DoRemoveAccount addr => stateAfter (removeAccount addr st) st
  end.

Inductive reachable : State -> Prop :=
  | reach_init : reachable initialState
  | reach_step (a : Action) (st : State) :
      reachable st -> reachable (run a st).

(** The vault was last written under [pw]. *)
Definition vaultUnder (st : State) (pw : password) : Prop :=
  exists ks, vault st = Some (encrypt ks pw).

End Controller.

End KeyringController.

(* ================================================================= *)
(** * Vocabulary of the properties *)
(* ================================================================= *)

Module Vocabulary.

Import JS.

(** [needle] occurs in [hay]. *)
Definition contains (needle hay : jsstring) : Prop :=
  exists before after, hay = before ++ needle ++ after.

(** ** src/util.ts *)

(** [normalizeMessageData] as the property C10 states it: the stripped string is
    returned with its prefix whenever it consists of hexadecimal digits
    only. *)
Definition normalizeMessageData_as_stated (data : jsstring) : jsstring :=
  let stripped := stripHexPrefix data in
  if forallb isHexDigit stripped then js "0x" ++ stripped
  else js "0x" ++ bufferToStringHex (bufferFromUtf8 data).

Section SafelyExecute.

Import Util.

Variables E Heap : Type.

(** The callback returns whenever it is called. *)
Definition retryReturns (retry : option (Retry E Heap)) : Prop :=
  forall r error w, retry = Some r -> exists w', r error w = (Returns tt, w').

(** The state after the [catch] block when the callback returns. *)
Definition afterCatch (logError : bool) (retry : option (Retry E Heap))
    (error : E) (w : World E Heap) : World E Heap :=
  let w1 := if logError then console_error error w else w in
  match retry with
  | None => w1
  | Some r => snd (r error w1)
  end.

End SafelyExecute.

(** ** The keyring controller *)

Section Controller.

Import KeyringController.

Context {provider : Provider}.

(** The prefix the test looks for in the message of a typed-signing
    failure. *)
Definition typedSigningPrefix : jsstring :=
  js "Keyring Controller signTypedMessage:".


(** The persisted vault, when there is one, holds a non-empty keyring
    sequence. *)
Definition vaultOk (st : State) : Prop :=
  vault st = None \/
  exists ks pw, ks <> [] /\ vault st = Some (encrypt ks pw).

(** While Unlocked the keyring sequence is not empty and the vault is its
    encryption under the session password; while Locked it is empty. *)
Definition Inv (st : State) : Prop :=
  match lock st with
  | Unlocked pw =>
      memKeyrings st <> [] /\ vault st = Some (encrypt (memKeyrings st) pw)
  | Locked => memKeyrings st = [] /\ vaultOk st
  end.

End Controller.

End Vocabulary.

(** ** The scenario of the test file *)

Module Scenario.

Import JS KeyringController.

Local Open Scope N_scope.

(** The constants of [tests/KeyringController.test.ts]. *)
Definition seedWords : jsstring :=
  js "puzzle seed penalty soldier say clay field arctic metal hen cage runway".
Definition privateKey : jsstring :=
  js "1e4e6a4c0c077f4ae8ddfbf372918e61dd0fb4a4cfa592cb16e7546d505e68fc".
Definition testPassword : jsstring := js "password123".
Definition importedAddress : jsstring :=
  js "0x51253087e6f8358b5f10c0a94315d69db3357859".

(** A stand-in for the crypto provider.  The vault keeps the keyrings beside
    the password and decryption compares passwords; an address is read off
    the secret (the test's key has the test's address); signing returns the
    address as the signature. *)
Definition standInProvider : Provider := {|
  Blob := list Keyring * password;
  encrypt := fun ks pw => (ks, pw);
  decrypt := fun blob pw =>
    if jsstring_eqb pw (snd blob) then inr (fst blob)
    else inl (js "Incorrect password");
  deriveAccount := fun s i =>
    match s with
    | Mnemonic phrase =>
        bufferToHex (firstn 19 (bufferFromUtf8 phrase) ++ [N.of_nat i])
    | RawKey key =>
        if jsstring_eqb key privateKey then importedAddress
        else js "0x" ++ firstn 40 (stripHexPrefix key)
    end;
  decryptKeyfile := fun json pw =>
    if jsstring_eqb pw (js "holachao123") then inr json
    else inl (js "Key derivation failed - possibly wrong passphrase");
  signTyped := fun _ _ _ addr => inr addr
|}.

(** [!e.name] fails for an entry without a truthy [name]. *)
Definition entryHasName (entry : JsValue) : bool :=
  match entry with
  | JsObject fields =>
      existsb (fun f => jsstring_eqb (fst f) (js "name") && truthy (snd f))
              fields
  | _ => false
  end.

(** Stand-ins for the validators: a seed phrase has twelve words, a private
    key sixty-four hex digits; the hash counts the named entries; the
    parser knows the empty object only, which the schema refuses. *)
Definition standInValidation : Validation := {|
  isValidMnemonic := fun s =>
    (List.length (filter (N.eqb 32) s) =? 11)%nat;
  isValidPrivateKey := fun k =>
    Util.hexRe (stripHexPrefix k) &&
    (List.length (stripHexPrefix k) =? 64)%nat;
  Hash := nat;
  hashEntries := fun items =>
    if forallb entryHasName items then Some (List.length items) else None;
  JSON_parse := fun text =>
    if jsstring_eqb text (js "{}") then Some (JsObject []) else None;
  SchemaError := jsstring;
  schemaErrors := fun v =>
    match v with
    | JsObject fields =>
        filter (fun required =>
                  negb (existsb (fun f => jsstring_eqb (fst f) required) fields))
               [js "types"; js "primaryType"; js "domain"; js "message"]
    | _ => [js "is not of a type(s) object"]
    end;
  lockedText := js "The controller is locked.";
  noVaultText := js "Cannot unlock without a previous vault.";
  notFoundText := js "No keyring found for the requested account.";
  seedText := js "Seed phrase is invalid.";
  typedDataText := js "Expected EIP712 typed data."
|}.

#[local] Existing Instance standInProvider.
#[local] Existing Instance standInValidation.

(** [beforeEach]: a new controller and [createNewVaultAndKeychain]. *)
Definition created : State :=
  run (DoCreateNewVaultAndKeychain testPassword seedWords) initialState.

(** After [importAccountWithStrategy('privateKey', [privateKey])]. *)
Definition imported : State :=
  run (DoImport (PrivateKeyStrategy [privateKey])) created.




End Scenario.

(* ================================================================= *)
(** * JavaScript numbers and their conversions from strings *)
(* ================================================================= *)

Module Numbers.

Import JS.

Local Open Scope N_scope.

(** A number: [NaN], an infinity, or a finite value (every finite double
    is a rational). *)
Inductive JsNum : Type :=
  | NumNaN
  | NumPosInf
  | NumNegInf
  | NumFinite (q : QArith_base.Q).

(** [isNaN(x)], [x > bound] and [x < bound] for a number [x] and an integer
    [bound]. *)
Definition numIsNaN (x : JsNum) : bool :=
  match x with NumNaN => true | _ => false end.

Definition numGt (x : JsNum) (bound : Z) : bool :=
  match x with
  | NumNaN | NumNegInf => false
  | NumPosInf => true
  | NumFinite q => negb (QArith_base.Qle_bool q (QArith_base.inject_Z bound))
  end.

Definition numLt (x : JsNum) (bound : Z) : bool :=
  match x with
  | NumNaN | NumPosInf => false
  | NumNegInf => true
  | NumFinite q => negb (QArith_base.Qle_bool (QArith_base.inject_Z bound) q)
  end.

Definition isDecimalDigit (c : N) : bool := (48 <=? c) && (c <=? 57).
Definition isOctalDigit (c : N) : bool := (48 <=? c) && (c <=? 55).
Definition isBinaryDigit (c : N) : bool := (c =? 48) || (c =? 49).

(** The longest prefix of [s] whose characters pass [p], and the rest. *)
Fixpoint span (p : N -> bool) (s : jsstring) : jsstring * jsstring :=
  match s with
  | [] => ([], [])
  | c :: rest =>
      if p c then let (taken, left) := span p rest in (c :: taken, left)
      else ([], s)
  end.

Fixpoint dropWhile (p : N -> bool) (s : jsstring) : jsstring :=
  match s with
  | [] => []
  | c :: rest => if p c then dropWhile p rest else s
  end.

(** [String.prototype.trim]: white space and line terminators go from both
    ends (the class [\s] of [BN.isWhitespace]). *)
Definition trimStart (s : jsstring) : jsstring := dropWhile BN.isWhitespace s.
Definition trimEnd (s : jsstring) : jsstring :=
  rev (dropWhile BN.isWhitespace (rev s)).
Definition trim (s : jsstring) : jsstring := trimEnd (trimStart s).

(** The value of a string of decimal digits. *)
Definition decimalValue (digits : jsstring) : N :=
  fold_left (fun r c => r * 10 + (c - 48)) digits 0.

(** [parseInt(string, 10)]: leading white space is skipped, a sign is read,
    then the longest run of decimal digits; [None] stands for [NaN] (no
    digit).  The integer is the mathematical value of the digits. *)
Definition parseInt10 (string : jsstring) : option Z :=
  let s := trimStart string in
  let (negative, body) :=
    match s with
    | c :: rest =>
        if c =? 45 then (true, rest)
        else if c =? 43 then (false, rest)
        else (false, s)
    | [] => (false, s)
    end in
  match fst (span isDecimalDigit body) with
  | [] => None
  | digits =>
      Some (if negative then - Z.of_N (decimalValue digits)
            else Z.of_N (decimalValue digits))%Z
  end.

(** [Number.isFinite(n) && !Number.isNaN(n) && Number.isSafeInteger(n)] for
    the result [n] of [parseInt]: the double nearest to an integer is a safe
    integer exactly when the integer is at most [2^53 - 1] in magnitude. *)
Definition isSafeParsedInteger (n : option Z) : bool :=
  match n with
  | None => false
  | Some z => (Z.abs z <=? 9007199254740991)%Z
  end.

(** A non-empty run of characters that all pass [p]. *)
Definition nonEmptyAll (p : N -> bool) (s : jsstring) : bool :=
  match s with
  | [] => false
  | _ :: _ => forallb p s
  end.

(** [ExponentPart]: nothing, or [e] or [E], an optional sign, digits. *)
Definition isExponentPart (s : jsstring) : bool :=
  match s with
  | [] => true
  | c :: rest =>
      ((c =? 101) || (c =? 69)) &&
      match rest with
      | sign :: digits =>
          if (sign =? 43) || (sign =? 45)
          then nonEmptyAll isDecimalDigit digits
          else nonEmptyAll isDecimalDigit rest
      | [] => false
      end
  end.

(** [StrUnsignedDecimalLiteral]: [Infinity], or digits with an optional
    fraction and exponent, or a fraction that starts with the dot. *)
Definition isUnsignedDecimalLiteral (s : jsstring) : bool :=
  KeyringController.jsstring_eqb s (js "Infinity") ||
  let (intDigits, afterInt) := span isDecimalDigit s in
  let withoutDot :=
    match intDigits with
    | [] => false
    | _ :: _ => isExponentPart afterInt
    end in
  match afterInt with
  | c :: afterDot =>
      if c =? 46 then
        let (fracDigits, afterFrac) := span isDecimalDigit afterDot in
        match intDigits, fracDigits with
        | [], [] => false
        | _, _ => isExponentPart afterFrac
        end
      else withoutDot
  | [] => withoutDot
  end.

(** [NonDecimalIntegerLiteral]: [0x], [0o] or [0b] (either case) and digits
    of the base; no sign. *)
Definition isNonDecimalIntegerLiteral (s : jsstring) : bool :=
  match s with
  | zero :: c :: digits =>
      (zero =? 48) &&
      (if (c =? 120) || (c =? 88) then nonEmptyAll isHexDigit digits
       else if (c =? 111) || (c =? 79) then nonEmptyAll isOctalDigit digits
       else if (c =? 98) || (c =? 66) then nonEmptyAll isBinaryDigit digits
       else false)
  | _ => false
  end.

(** [isNaN(+string)]: the string, white space trimmed, is not empty and is
    no [StrNumericLiteral]. *)
Definition toNumberIsNaN (string : jsstring) : bool :=
  match trim string with
  | [] => false
  | c :: rest =>
      if (c =? 43) || (c =? 45) then negb (isUnsignedDecimalLiteral rest)
      else negb (isUnsignedDecimalLiteral (c :: rest) ||
                 isNonDecimalIntegerLiteral (c :: rest))
  end.

End Numbers.

(* ================================================================= *)
(** * src/util.ts: transactions *)
(* ================================================================= *)

Module Transactions.

Import JS Numbers.

Local Open Scope N_scope.

(** [interface Transaction]: a field is [undefined] or a string;
    [chainId] is a number. *)
Record Transaction : Type := mkTransaction {
  chainId : option Z;
  data : option jsstring;
  from : option jsstring;
  gas : option jsstring;
  gasPrice : option jsstring;
  nonce : option jsstring;
  to : option jsstring;
  value : option jsstring
}.

(** [if (transaction[key])]: the field is set and not the empty string. *)
Definition truthyField (v : option jsstring) : bool :=
  match v with
  | Some (_ :: _) => true
  | _ => false
  end.

(** What a template literal prints for a field. *)
Definition printField (v : option jsstring) : jsstring :=
  match v with
  | Some s => s
  | None => js "undefined"
  end.

Section Normalize.

(** [String.prototype.toLowerCase]. *)
Variable toLowerCase : jsstring -> jsstring.

(** One key of [NORMALIZERS]: a truthy field is normalised, any other is
    left out of the result. *)
Definition normalizeField (normalizer : jsstring -> jsstring)
    (v : option jsstring) : option jsstring :=
  if truthyField v then option_map normalizer v else None.

(** [normalizeTransaction(transaction)]: the result starts as
    [{ from: '' }]; [chainId] is no key of [NORMALIZERS]. *)
Definition normalizeTransaction (transaction : Transaction) : Transaction :=
  mkTransaction
    None
    (normalizeField addHexPrefix (data transaction))
    (if truthyField (from transaction)
     then option_map (fun v => toLowerCase (addHexPrefix v)) (from transaction)
     else Some [])
    (normalizeField addHexPrefix (gas transaction))
    (normalizeField addHexPrefix (gasPrice transaction))
    (normalizeField addHexPrefix (nonce transaction))
    (normalizeField (fun v => toLowerCase (addHexPrefix v)) (to transaction))
    (normalizeField addHexPrefix (value transaction)).

End Normalize.

Definition invalidAddressError (field : jsstring) (v : option jsstring)
    : JsError :=
  JS.mkError (js "Invalid " ++ dquote ++ field ++ dquote ++ js " address: "
              ++ printField v ++ js " must be a valid string.").

Definition invalidValueError (v why : jsstring) : JsError :=
  JS.mkError (js "Invalid " ++ dquote ++ js "value" ++ dquote ++ js ": "
              ++ v ++ why).

(** [!from || typeof from !== 'string' || !isValidAddress(from)] *)
Definition fromIsInvalid (v : option jsstring) : bool :=
  negb (truthyField v) ||
  negb (match v with Some s => isValidAddress s | None => false end).

(** The block on [transaction.value]: [Normal tt] or the error thrown. *)
Definition checkValue (v : jsstring) : Completion unit :=
  if existsb (N.eqb 45) v then
    Throw (invalidValueError v (js " is not a positive number."))
  else if existsb (N.eqb 46) v then
    Throw (invalidValueError v (js " number must be denominated in wei."))
  else if isSafeParsedInteger (parseInt10 v) && negb (toNumberIsNaN v) then
    Normal tt
  else Throw (invalidValueError v (js " number must be a valid number.")).

(** [delete transaction.to] *)
Definition deleteTo (transaction : Transaction) : Transaction :=
  mkTransaction (chainId transaction) (data transaction) (from transaction)
    (gas transaction) (gasPrice transaction) (nonce transaction) None
    (value transaction).

(** The branches on [transaction.to]: the transaction as they leave it, or
    the error thrown. *)
Definition checkTo (transaction : Transaction) : Completion Transaction :=
  let creation :=
    if truthyField (data transaction) then Normal (deleteTo transaction)
    else Throw (invalidAddressError (js "to") (to transaction)) in
  match to transaction with
  | None => creation
  | Some a =>
      if KeyringController.jsstring_eqb a (js "0x") then creation
      else if isValidAddress a then Normal transaction
      else Throw (invalidAddressError (js "to") (to transaction))
  end.

(** [validateTransaction(transaction)]: it returns with the transaction as
    it has left it, or throws. *)
Definition validateTransaction (transaction : Transaction)
    : Completion Transaction :=
  if fromIsInvalid (from transaction) then
    Throw (invalidAddressError (js "from") (from transaction))
  else
    match checkTo transaction with
    | Throw e => Throw e
    | Normal transaction' =>
        match value transaction' with
        | None => Normal transaction'
        | Some v =>
            match checkValue v with
            | Throw e => Throw e
            | Normal _ => Normal transaction'
            end
        end
    end.

End Transactions.

(* ================================================================= *)
(** * src/util.ts: the other helpers *)
(* ================================================================= *)

Module Helpers.

Import JS Numbers.

Local Open Scope N_scope.

(** ** fractionBN *)

(** [a.div(b)] of bn.js: the quotient rounded toward zero; it asserts that
    [b] is not zero ([None] stands for the failed assertion). *)
Definition BN_div (a b : BN.BN) : option BN.BN :=
  if (b =? 0)%Z then None else Some (Z.quot a b).

Section FractionBN.

(** [new BN(x)] for a number or a string [x]; [None] when it throws. *)
Variable Arg : Type.
Variable newBN : Arg -> option BN.BN.

(** [fractionBN(targetBN, numerator, denominator)] *)
Definition fractionBN (targetBN : BN.BN) (numerator denominator : Arg)
    : option BN.BN :=
  match newBN numerator with
  | None => None
  | Some numBN =>
      match newBN denominator with
      | None => None
      | Some denomBN => BN_div (targetBN * numBN)%Z denomBN
      end
  end.

End FractionBN.

(** ** getBuyURL *)

Section GetBuyURL.

(** What a template literal prints for a number. *)
Variable numberToString : JsNum -> jsstring.

(** [getBuyURL(networkCode = '1', address?, amount = 5)]; [None] stands for
    [undefined], as an argument and as the result. *)
Definition getBuyURL (networkCode address : option jsstring)
    (amount : option JsNum) : option jsstring :=
  let code := match networkCode with Some c => c | None => js "1" end in
  let amount' :=
    match amount with
    | Some a => a
    | None => NumFinite (QArith_base.inject_Z 5)
    end in
  let address' :=
    match address with Some a => a | None => js "undefined" end in
  if KeyringController.jsstring_eqb code (js "1") then
    Some (js "https://buy.coinbase.com/?code=9ec56d01-7e81-5017-930c-513daa27bb6a&amount="
          ++ numberToString amount' ++ js "&address=" ++ address'
          ++ js "&crypto_currency=ETH")
  else if KeyringController.jsstring_eqb code (js "3") then
    Some (js "https://faucet.metamask.io/")
  else if KeyringController.jsstring_eqb code (js "4") then
    Some (js "https://www.rinkeby.io/")
  else if KeyringController.jsstring_eqb code (js "5") then
    Some (js "https://goerli-faucet.slock.it/")
  else if KeyringController.jsstring_eqb code (js "42") then
    Some (js "https://github.com/kovan-testnet/faucet")
  else None.

End GetBuyURL.

(** ** hexToText *)

Section HexToText.

(** [Buffer.from(string, 'hex')]; [None] when it throws.  What it does with
    a string of odd length or with a character that is no hex digit depends
    on the implementation of [Buffer]. *)
Variable bufferFromHex : jsstring -> option (list N).

(** [buff.toString('utf8')] *)
Variable utf8Decode : list N -> jsstring.

(** [hexToText(hex)] *)
Definition hexToText (hex : jsstring) : jsstring :=
  match bufferFromHex (stripHexPrefix hex) with
  | Some buff => utf8Decode buff
  | None => hex
  end.

End HexToText.

(** The value of one hex digit. *)
Definition hexNibble (c : N) : option N :=
  if (48 <=? c) && (c <=? 57) then Some (c - 48)
  else if (97 <=? c) && (c <=? 102) then Some (c - 87)
  else if (65 <=? c) && (c <=? 70) then Some (c - 55)
  else None.

(** A hex decoder as Node documents it: two digits give a byte, and
    decoding stops at the first pair that is not two hex digits. *)
Fixpoint decodeHexPairs (s : jsstring) : list N :=
  match s with
  | a :: b :: rest =>
      match hexNibble a, hexNibble b with
      | Some x, Some y => (16 * x + y) :: decodeHexPairs rest
      | _, _ => []
      end
  | _ => []
  end.

(** ** validatePersonalSignMessageData *)

Section PersonalSign.

Variable toStr : JsValue -> jsstring.

(** [validatePersonalSignMessageData(messageData)]; the parameters have the
    two fields the typed-message parameters have. *)
Definition validatePersonalSignMessageData
    (messageData : Util.TypedMessageParams) : Completion unit :=
  if Util.fromIsInvalid (Util.from messageData) then
    Throw (Util.invalidFrom toStr (Util.from messageData))
  else if negb (truthy (Util.data messageData)) ||
          negb (isString (Util.data messageData))
  then Throw (JS.mkError
                (js "Invalid message " ++ dquote ++ js "data" ++ dquote
                 ++ js ": " ++ toStr (Util.data messageData)
                 ++ js " must be a valid string."))
  else Normal tt.

End PersonalSign.

(** ** validateTokenToWatch *)

(** [interface Token], the fields read: each may be missing in a request. *)
Record Token : Type := mkToken {
  address : option jsstring;
  symbol : option jsstring;
  decimals : option JsNum
}.

Section TokenToWatch.

Variable numberToString : JsNum -> jsstring.

Definition printDecimals (d : option JsNum) : jsstring :=
  match d with Some x => numberToString x | None => js "undefined" end.

(** [validateTokenToWatch(token)] *)
Definition validateTokenToWatch (token : Token) : Completion unit :=
  match address token, symbol token, decimals token with
  | Some (a0 :: a), Some (s0 :: s), Some d =>
      if negb (List.length (s0 :: s) <? 7)%nat then
        Throw (JS.mkError (js "Invalid symbol " ++ (s0 :: s)
                           ++ js " more than six characters"))
      else if numIsNaN d || numGt d 36 || numLt d 0 then
        Throw (JS.mkError (js "Invalid decimals " ++ numberToString d
                           ++ js " must be at least 0, and not over 36"))
      else if negb (isValidAddress (a0 :: a)) then
        Throw (JS.mkError (js "Invalid address " ++ (a0 :: a)))
      else Normal tt
  | _, _, _ =>
      Throw (JS.mkError
               (js "Cannot suggest token without address, symbol, and decimals"))
  end.

End TokenToWatch.

(** ** isSmartContractCode *)

(** [isSmartContractCode(code)] *)
Definition isSmartContractCode (code : jsstring) : bool :=
  match code with
  | [] => false
  | _ :: _ =>
      negb (KeyringController.jsstring_eqb code (js "0x")) &&
      negb (KeyringController.jsstring_eqb code (js "0x0"))
  end.

(** ** normalizeEnsName *)

(** [[\w\d\-]]: a letter, a digit, the underscore or the hyphen. *)
Definition isLabelChar (c : N) : bool :=
  ((48 <=? c) && (c <=? 57)) || ((65 <=? c) && (c <=? 90)) ||
  ((97 <=? c) && (c <=? 122)) || (c =? 95) || (c =? 45).

(** The pieces of [s] between dots. *)
Fixpoint splitDots (s : jsstring) : list jsstring :=
  match s with
  | [] => [[]]
  | c :: rest =>
      if c =? 46 then [] :: splitDots rest
      else
        match splitDots rest with
        | label :: labels => (c :: label) :: labels
        | [] => [[c]]
        end
  end.

(** The labels put together again, a dot between two of them. *)
Fixpoint joinDots (labels : list jsstring) : jsstring :=
  match labels with
  | [] => []
  | label :: rest =>
      match rest with
      | [] => label
      | _ :: _ => label ++ 46 :: joinDots rest
      end
  end.

(** The labels of a name that
    [/^(([\w\d\-]+)\.)*[\w\d\-]{7,}\.(eth|test)$/] matches, from the last
    one: [eth] or [test], before it a label of seven characters of the
    class or more, before that labels of the class that are not empty. *)
Definition labelsMatch (reversedLabels : list jsstring) : bool :=
  match reversedLabels with
  | tld :: name :: subdomains =>
      (KeyringController.jsstring_eqb tld (js "eth") ||
       KeyringController.jsstring_eqb tld (js "test")) &&
      forallb isLabelChar name && (7 <=? List.length name)%nat &&
      forallb (nonEmptyAll isLabelChar) subdomains
  | _ => false
  end.

Definition ensNameRe (s : jsstring) : bool := labelsMatch (rev (splitDots s)).

Section NormalizeEnsName.

(** [ensNamehash.normalize]; [None] when it throws. *)
Variable ensNormalize : jsstring -> option jsstring.

(** [normalizeEnsName(ensName)] for a string [ensName]; [None] stands for
    [null]. *)
Definition normalizeEnsName (ensName : jsstring) : option jsstring :=
  match ensName with
  | [] => None
  | _ :: _ =>
      match ensNormalize (trim ensName) with
      | Some normalized =>
          if ensNameRe normalized then Some normalized else None
      | None => None
      end
  end.

End NormalizeEnsName.

End Helpers.

(* ================================================================= *)
(** * Stand-ins for the library functions of the helpers *)
(* ================================================================= *)

Module StandIns.

Import JS Numbers.

Local Open Scope N_scope.

(** [toLowerCase] on the letters A to Z; other characters stay. *)
Definition asciiLowerChar (c : N) : N :=
  if (65 <=? c) && (c <=? 90) then c + 32 else c.

Definition asciiToLowerCase (s : jsstring) : jsstring := map asciiLowerChar s.

(** UTF-8 decoding of bytes below 128: each byte is its character. *)
Definition asciiDecode (bytes : list N) : jsstring := bytes.

(** [new BN(x)] for an integer: below [2^53] in magnitude, or the
    constructor's assertion fails. *)
Definition newBNofInteger (x : Z) : option BN.BN :=
  if (Z.abs x <? 9007199254740992)%Z then Some x else None.

(** Printing of the integers from 0 to 9, enough for the default amount. *)
Definition printSmallNumber (x : JsNum) : jsstring :=
  match x with
  | NumFinite q =>
      if (QArith_base.Qden q =? 1)%positive
      then [48 + Z.to_N (QArith_base.Qnum q)]
      else js "?"
  | NumNaN => js "NaN"
  | NumPosInf => js "Infinity"
  | NumNegInf => js "-Infinity"
  end.

(** [ensNamehash.normalize] on names of letters A to Z, a to z, digits and
    dots: the name in lower case. *)
Definition lowerCaseNormalize (name : jsstring) : option jsstring :=
  Some (asciiToLowerCase name).

(** The transaction of the test [should sign transaction]. *)
Definition testTransaction : Transactions.Transaction :=
  Transactions.mkTransaction (Some 3%Z) (Some (js "0x1"))
    (Some (js "0xB97C80FAB7A3793BBE746864DB80D236F1345EA7"))
    (Some (js "5108")) (Some (js "0x5108")) None
    (Some (js "0x51253087e6f8358b5f10c0a94315d69db3357859"))
    (Some (js "0x5208")).

End StandIns.

(* ================================================================= *)
(** * Properties of the hex helpers *)
(* ================================================================= *)

Module HexFacts.

Import JS BN Util.

Local Open Scope N_scope.

Lemma hexChar_isHexDigit (d : N) : d < 16 -> isHexDigit (hexChar d) = true.
Proof.
  intros Hd. unfold hexChar, isHexDigit.
  destruct (N.ltb_spec d 10) as [Hlt | Hge].
  - replace (48 <=? 48 + d) with true by (symmetry; apply N.leb_le; lia).
    replace (48 + d <=? 57) with true by (symmetry; apply N.leb_le; lia).
    reflexivity.
  - replace (97 <=? 87 + d) with true by (symmetry; apply N.leb_le; lia).
    replace (87 + d <=? 102) with true by (symmetry; apply N.leb_le; lia).
    rewrite orb_true_r. reflexivity.
Qed.

Lemma hexDigitValue_hexChar (d : N) : d < 16 -> hexDigitValue (hexChar d) = d.
Proof.
  intros Hd.
  assert (Hcases : d = 0 \/ d = 1 \/ d = 2 \/ d = 3 \/ d = 4 \/ d = 5 \/
                   d = 6 \/ d = 7 \/ d = 8 \/ d = 9 \/ d = 10 \/ d = 11 \/
                   d = 12 \/ d = 13 \/ d = 14 \/ d = 15) by lia.
  repeat (destruct Hcases as [-> | Hcases]; [reflexivity |]).
  subst d. reflexivity.
Qed.

Lemma shift_lor_digit (r d : N) :
  d < 16 -> N.lor (N.shiftl r 4) d = r * 16 + d.
Proof.
  intros Hd. rewrite N.shiftl_mul_pow2. change (2 ^ 4) with 16.
  assert (Hdisj : N.land (r * 16) d = 0); [| rewrite <- N.lxor_lor, <- N.add_nocarry_lxor by exact Hdisj; reflexivity].
  apply N.bits_inj. intros k. rewrite N.land_spec, N.bits_0.
  destruct (N.ltb_spec k 4) as [Hk | Hk].
  - replace (r * 16) with (r * 2 ^ 4) by reflexivity.
    rewrite N.mul_pow2_bits_low by assumption. reflexivity.
  - assert (Hbit : N.testbit d k = false).
    { destruct (N.eq_dec d 0) as [-> | Hnz]; [apply N.bits_0 |].
      apply N.bits_above_log2.
      assert (N.log2 d < 4); [| lia].
      apply N.log2_lt_pow2; [lia |]. exact Hd. }
    rewrite Hbit. apply andb_false_r.
Qed.

Lemma parseHex_snoc (s : jsstring) (c : N) :
  parseHex (s ++ [c]) = N.lor (N.shiftl (parseHex s) 4) (hexDigitValue c).
Proof.
  unfold parseHex. rewrite fold_left_app. reflexivity.
Qed.

Lemma hexDigits_all_hex (fuel : nat) (n : N) :
  forallb isHexDigit (hexDigits fuel n) = true.
Proof.
  revert n. induction fuel as [| fuel IH]; intros n; simpl; [reflexivity |].
  destruct (N.ltb_spec n 16) as [Hlt | Hge].
  - simpl. rewrite hexChar_isHexDigit by assumption. reflexivity.
  - rewrite forallb_app, IH. simpl.
    rewrite hexChar_isHexDigit; [reflexivity |].
    apply N.mod_lt. lia.
Qed.

Lemma hexDigits_nonempty (fuel : nat) (n : N) :
  hexDigits (S fuel) n <> [].
Proof.
  simpl. destruct (n <? 16); [discriminate |].
  intros H. apply app_eq_nil in H. destruct H as [_ H]. discriminate.
Qed.

(** With one unit of fuel per bit the loop reaches the last digit. *)
Lemma parseHex_hexDigits (fuel : nat) (n : N) :
  n < 2 ^ N.of_nat fuel -> 0 < n -> parseHex (hexDigits fuel n) = n.
Proof.
  revert n. induction fuel as [| fuel IH]; intros n Hbound Hpos.
  - simpl in Hbound. lia.
  - cbn [hexDigits].
    destruct (N.ltb_spec n 16) as [Hlt | Hge].
    + unfold parseHex. cbn [fold_left]. rewrite N.shiftl_0_l, N.lor_0_l.
      apply hexDigitValue_hexChar. assumption.
    + rewrite parseHex_snoc.
      assert (Hm : n mod 16 < 16) by (apply N.mod_lt; lia).
      rewrite hexDigitValue_hexChar by assumption.
      rewrite shift_lor_digit by assumption.
      assert (Hq : 0 < n / 16).
      { apply N.div_str_pos. lia. }
      assert (Hqb : n / 16 < 2 ^ N.of_nat fuel).
      { apply N.Div0.div_lt_upper_bound.
        rewrite Nat2N.inj_succ, N.pow_succ_r' in Hbound. lia. }
      rewrite IH by assumption.
      pose proof (N.div_mod n 16). lia.
Qed.

Lemma parseHex_magnitude (n : N) : parseHex (magnitudeToString16 n) = n.
Proof.
  unfold magnitudeToString16.
  destruct (N.eq_dec n 0) as [-> | Hnz]; [reflexivity |].
  apply parseHex_hexDigits; [| lia].
  rewrite Nat2N.inj_succ, N2Nat.id, N.pow_succ_r'.
  pose proof (N.size_gt n). lia.
Qed.

Lemma magnitude_head_hex (n : N) :
  exists c rest, magnitudeToString16 n = c :: rest /\ isHexDigit c = true.
Proof.
  unfold magnitudeToString16.
  pose proof (hexDigits_all_hex (S (N.to_nat (N.size n))) n) as Hall.
  pose proof (@hexDigits_nonempty (N.to_nat (N.size n)) n) as Hne.
  destruct (hexDigits (S (N.to_nat (N.size n))) n) as [| c rest];
    [contradiction |].
  simpl in Hall. apply andb_true_iff in Hall. destruct Hall as [Hc _].
  exists c, rest. split; [reflexivity | assumption].
Qed.

(** No hex digit is the letter x or a minus sign. *)
Lemma all_hex_not_prefixed (s : jsstring) :
  forallb isHexDigit s = true -> isHexPrefixed s = false.
Proof.
  destruct s as [| c0 [| c1 t]]; try reflexivity.
  cbn [forallb isHexPrefixed]. intros H.
  apply andb_true_iff in H. destruct H as [_ H].
  apply andb_true_iff in H. destruct H as [H1 _].
  destruct (N.eqb_spec c1 120) as [-> | _]; [discriminate H1 |].
  apply andb_false_r.
Qed.

Lemma hex_digit_not_minus (c : N) : isHexDigit c = true -> (c =? 45) = false.
Proof.
  intros H. destruct (N.eqb_spec c 45) as [-> | _]; [discriminate H | reflexivity].
Qed.

Lemma isHexDigit_range (c : N) : isHexDigit c = true -> 48 <= c <= 102.
Proof.
  unfold isHexDigit. intros H.
  repeat (apply orb_true_iff in H; destruct H as [H | H]);
    apply andb_true_iff in H; destruct H as [H1 H2];
    apply N.leb_le in H1; apply N.leb_le in H2; lia.
Qed.

Lemma hex_digit_not_whitespace (c : N) :
  isHexDigit c = true -> isWhitespace c = false.
Proof.
  intros H. apply isHexDigit_range in H. unfold isWhitespace.
  replace (c <=? 13) with false by (symmetry; apply N.leb_gt; lia).
  replace (0x2000 <=? c) with false by (symmetry; apply N.leb_gt; lia).
  repeat match goal with
         | |- context [c =? ?k] =>
             replace (c =? k) with false by (symmetry; apply N.eqb_neq; lia)
         end.
  rewrite andb_false_r. reflexivity.
Qed.

(** Dropping white space leaves a string of hex digits as it is. *)
Lemma all_hex_no_whitespace (s : jsstring) :
  forallb isHexDigit s = true ->
  filter (fun c => negb (isWhitespace c)) s = s.
Proof.
  induction s as [| c s IH]; [reflexivity |].
  cbn [forallb filter]. intros H. apply andb_true_iff in H.
  destruct H as [Hc Hs].
  rewrite (hex_digit_not_whitespace c Hc). cbn [negb].
  rewrite IH by exact Hs. reflexivity.
Qed.

End HexFacts.

(* ================================================================= *)
(** * Properties of src/util.ts *)
(* ================================================================= *)

Module UtilProps.

Import JS BN Util Vocabulary HexFacts.

Local Open Scope N_scope.

Lemma strip_add_prefix (digits : jsstring) :
  stripHexPrefix (js "0x" ++ digits) = digits.
Proof. reflexivity. Qed.

Lemma BNToHex_nonneg (n : N) :
  BNToHex (Z.of_N n) = js "0x" ++ magnitudeToString16 n.
Proof.
  unfold BNToHex, toString16.
  replace (Z.of_N n <? 0)%Z with false by (symmetry; apply Z.ltb_ge; lia).
  rewrite Zabs2N.id. unfold addHexPrefix.
  rewrite all_hex_not_prefixed; [reflexivity |].
  apply hexDigits_all_hex.
Qed.

Lemma ofString16_magnitude (n : N) :
  ofString16 (magnitudeToString16 n) = Z.of_N n.
Proof.
  destruct (magnitude_head_hex n) as (c & rest & Heq & Hc).
  unfold ofString16.
  rewrite (all_hex_no_whitespace (magnitudeToString16 n))
    by apply hexDigits_all_hex.
  cbv zeta. pose proof (parseHex_magnitude n) as Hparse.
  rewrite Heq in Hparse |- *.
  rewrite (hex_digit_not_minus c Hc), Hparse. reflexivity.
Qed.

(** X1: the round trip holds for negative numbers too: the sign is printed
    after the prefix and read back by the parser. *)
Lemma hexToBN_BNToHex_negative (p : positive) :
  hexToBN (BNToHex (Z.neg p)) = Z.neg p.
Proof.
  unfold BNToHex, toString16. cbn [Z.ltb Z.compare Z.abs_N].
  unfold addHexPrefix.
  destruct (magnitude_head_hex (N.pos p)) as (c & rest & Heq & Hc).
  assert (Hpre : isHexPrefixed (45 :: magnitudeToString16 (N.pos p)) = false).
  { rewrite Heq. cbn [isHexPrefixed]. reflexivity. }
  rewrite Hpre. unfold hexToBN. rewrite strip_add_prefix.
  unfold ofString16. cbn [filter]. change (negb (isWhitespace 45)) with true.
  cbv iota.
  rewrite (all_hex_no_whitespace (magnitudeToString16 (N.pos p)))
    by apply hexDigits_all_hex.
  cbv zeta. rewrite N.eqb_refl, parseHex_magnitude. reflexivity.
Qed.

(** C9: for every non-negative big integer [n], [hexToBN (BNToHex n) = n];
    [BNToHex] renders [n] as ["0x"] followed by base-16 digits (at least
    one, each a hexadecimal digit, whose value is [n]), and [hexToBN] strips
    the prefix and parses base 16. *)
Theorem hexToBN_BNToHex_roundtrip (n : N) :
  hexToBN (BNToHex (Z.of_N n)) = Z.of_N n /\
  exists digits,
    BNToHex (Z.of_N n) = js "0x" ++ digits /\
    digits <> [] /\
    forallb isHexDigit digits = true /\
    stripHexPrefix (BNToHex (Z.of_N n)) = digits /\
    parseHex digits = n.
Proof.
  rewrite BNToHex_nonneg. split.
  - unfold hexToBN. rewrite strip_add_prefix. apply ofString16_magnitude.
  - exists (magnitudeToString16 n). repeat split.
    + apply hexDigits_nonempty.
    + apply hexDigits_all_hex.
    + apply parseHex_magnitude.
Qed.

Example hexToBN_BNToHex_255 :
  BNToHex 255%Z = js "0xff" /\ hexToBN (js "0xff") = 255%Z /\
  hexToBN (js "FF") = 255%Z /\ BNToHex 0%Z = js "0x0" /\
  hexToBN (js "0x f f") = 255%Z /\ hexToBN (js "-ff") = (-255)%Z /\
  BNToHex (-255)%Z = js "0x-ff".
Proof. repeat split. Qed.

(** ** normalizeMessageData *)

Lemma byteToHex_all_hex (b : N) : forallb isHexDigit (byteToHex b) = true.
Proof.
  unfold byteToHex. cbn [forallb].
  rewrite !hexChar_isHexDigit by (apply N.mod_lt; lia). reflexivity.
Qed.

Lemma bufferToStringHex_all_hex (buf : list N) :
  forallb isHexDigit (bufferToStringHex buf) = true.
Proof.
  unfold bufferToStringHex.
  induction buf as [| b buf IH]; [reflexivity |].
  cbn [flat_map]. rewrite forallb_app, byteToHex_all_hex, IH. reflexivity.
Qed.

Lemma hexRe_true_iff (s : jsstring) :
  hexRe s = true <-> s <> [] /\ forallb isHexDigit s = true.
Proof.
  destruct s as [| c s]; cbn [hexRe].
  - split; [discriminate | intros [H _]; contradiction].
  - split; [intros H; split; [discriminate | exact H] | intros [_ H]; exact H].
Qed.

(** C10, counterexample.  On ["0x"] the stripped string is empty, so it consists of hexadecimal
    digits only and the property as stated promises ["0x"]; [hexRe] asks
    for one digit at least, and the code returns the encoding of the two
    characters of ["0x"]. *)
Lemma normalizeMessageData_0x_is_encoded :
  forallb isHexDigit (stripHexPrefix (js "0x")) = true /\
  normalizeMessageData_as_stated (js "0x") = js "0x" /\
  normalizeMessageData (js "0x") = js "0x3078" /\
  normalizeMessageData (js "0x") <> normalizeMessageData_as_stated (js "0x").
Proof. repeat split. discriminate. Qed.

(** C10 (amended): for every string [data], [normalizeMessageData data] is
    ["0x"] followed by hexadecimal digits only; when [data] with an optional
    ["0x"] prefix stripped is not empty and consists of hexadecimal digits
    only, it is that stripped string after ["0x"]; otherwise it is ["0x"]
    followed by the hex encoding of the UTF-8 bytes of [data]. *)
Theorem normalizeMessageData_spec (data : jsstring) :
  (exists digits,
     normalizeMessageData data = js "0x" ++ digits /\
     forallb isHexDigit digits = true) /\
  (stripHexPrefix data <> [] /\
   forallb isHexDigit (stripHexPrefix data) = true ->
   normalizeMessageData data = js "0x" ++ stripHexPrefix data) /\
  (~ (stripHexPrefix data <> [] /\
      forallb isHexDigit (stripHexPrefix data) = true) ->
   normalizeMessageData data =
   js "0x" ++ bufferToStringHex (bufferFromUtf8 data)).
Proof.
  unfold normalizeMessageData.
  destruct (hexRe (stripHexPrefix data)) eqn:Hre.
  - apply hexRe_true_iff in Hre. destruct Hre as [Hne Hall].
    assert (Hadd : addHexPrefix (stripHexPrefix data)
                   = js "0x" ++ stripHexPrefix data).
    { unfold addHexPrefix. rewrite all_hex_not_prefixed by exact Hall.
      reflexivity. }
    rewrite Hadd. repeat split.
    + exists (stripHexPrefix data). split; [reflexivity | exact Hall].
    + intros Hnot. exfalso. apply Hnot. split; assumption.
  - assert (Hnot : ~ (stripHexPrefix data <> [] /\
                      forallb isHexDigit (stripHexPrefix data) = true)).
    { intros H. apply hexRe_true_iff in H. congruence. }
    repeat split.
    + exists (bufferToStringHex (bufferFromUtf8 data)).
      split; [reflexivity | apply bufferToStringHex_all_hex].
    + intros H. contradiction.
Qed.

Example normalizeMessageData_examples :
  normalizeMessageData (js "0xAbC1") = js "0xAbC1" /\
  normalizeMessageData (js "abc1") = js "0xabc1" /\
  normalizeMessageData (js "Hi!") = js "0x486921" /\
  normalizeMessageData [] = js "0x" /\
  normalizeMessageData [0xE9] = js "0xc3a9" /\
  normalizeMessageData [0x20AC] = js "0xe282ac" /\
  normalizeMessageData [0xD83D; 0xDE00] = js "0xf09f9880" /\
  normalizeMessageData [0xD83D] = js "0xefbfbd".
Proof. repeat split. Qed.

(** ** Typed-message validation *)

Section ValidationProps.

Variable toStr : JsValue -> jsstring.
Variable Hash : Type.
Variable hashEntries : list JsValue -> option Hash.
Variable JSON_parse : jsstring -> option JsValue.
Variable SchemaError : Type.
Variable schemaErrors : JsValue -> list SchemaError.

(** [from] passes the first test exactly when it is a non-empty string that
    is a valid address. *)
Lemma fromIsInvalid_false_iff (v : JsValue) :
  fromIsInvalid v = false <->
  exists a, v = JsString a /\ a <> [] /\ isValidAddress a = true.
Proof.
  unfold fromIsInvalid. split.
  - intros H. apply orb_false_iff in H. destruct H as [H Hvalid].
    apply orb_false_iff in H. destruct H as [Htruthy Hstr].
    destruct v; try discriminate Hstr.
    exists s. split; [reflexivity |]. split.
    + intros ->. discriminate Htruthy.
    + apply negb_false_iff. exact Hvalid.
  - intros (a & -> & Hne & Hvalid).
    destruct a as [| c a]; [contradiction |].
    cbn [truthy isString negb orb]. rewrite Hvalid. reflexivity.
Qed.

Lemma completion_unit_cases (c : Completion unit) :
  c <> Normal tt -> exists e, c = Throw e.
Proof.
  destruct c as [[] | e]; [intros H; contradiction | intros _; exists e; reflexivity].
Qed.

(** C4: [validateTypedSignMessageDataV3] returns normally if and only if
    [from] is a non-empty string that is a valid address, [data] is a
    non-empty string that parses as JSON, and the parsed value has no error
    against the EIP-712 schema; in every other case it throws.  The
    validator signs nothing: it returns or throws, and that is all. *)
Theorem validateTypedSignMessageDataV3_accepts_iff (messageData : TypedMessageParams) :
  (validateTypedSignMessageDataV3 toStr JSON_parse schemaErrors messageData
   = Normal tt <->
   exists a text parsed,
     from messageData = JsString a /\ a <> [] /\ isValidAddress a = true /\
     data messageData = JsString text /\ text <> [] /\
     JSON_parse text = Some parsed /\ schemaErrors parsed = []) /\
  (validateTypedSignMessageDataV3 toStr JSON_parse schemaErrors messageData
   <> Normal tt ->
   exists e,
     validateTypedSignMessageDataV3 toStr JSON_parse schemaErrors messageData
     = Throw e).
Proof.
  split; [| apply completion_unit_cases].
  unfold validateTypedSignMessageDataV3. split.
  - destruct (fromIsInvalid (from messageData)) eqn:Hfrom; [discriminate |].
    apply fromIsInvalid_false_iff in Hfrom. destruct Hfrom as (a & Ha & Hne & Hvalid).
    destruct (data messageData) as [| | b | z | | text | items | fields];
      cbn [truthy isString negb orb]; try discriminate.
    + destruct b; discriminate.
    + destruct (negb (negb (z =? 0)%Z)); discriminate.
    + destruct text as [| c text]; [discriminate |].
      cbn [negb orb].
      destruct (JSON_parse (c :: text)) as [parsed |] eqn:Hparse; [| discriminate].
      destruct (schemaErrors parsed) as [| err errs] eqn:Herrs; [| discriminate].
      intros _. exists a, (c :: text), parsed.
      repeat split; try assumption. discriminate.
  - intros (a & text & parsed & Ha & Hne & Hvalid & Hd & Htext & Hparse & Herrs).
    assert (Hfrom : fromIsInvalid (from messageData) = false).
    { apply fromIsInvalid_false_iff. exists a. repeat split; assumption. }
    rewrite Hfrom, Hd.
    destruct text as [| c text]; [contradiction |].
    cbn [truthy isString negb orb]. rewrite Hparse, Herrs. reflexivity.
Qed.

(** C5: [validateTypedSignMessageDataV1] returns normally if and only if
    [from] is a non-empty string that is a valid address, [data] is a
    non-empty array, and [typedSignatureHash] of [data] succeeds; when
    [from] and the array test pass and the hash fails it throws with
    message "Expected EIP712 typed data."; in every failing case it throws,
    and it signs nothing. *)
Theorem validateTypedSignMessageDataV1_accepts_iff (messageData : TypedMessageParams) :
  (validateTypedSignMessageDataV1 toStr hashEntries messageData = Normal tt <->
   exists a items h,
     from messageData = JsString a /\ a <> [] /\ isValidAddress a = true /\
     data messageData = JsArray items /\ items <> [] /\
     typedSignatureHash hashEntries items = Some h) /\
  (forall items,
     fromIsInvalid (from messageData) = false ->
     data messageData = JsArray items ->
     typedSignatureHash hashEntries items = None ->
     validateTypedSignMessageDataV1 toStr hashEntries messageData
     = Throw (JS.mkError (js "Expected EIP712 typed data."))) /\
  (validateTypedSignMessageDataV1 toStr hashEntries messageData <> Normal tt ->
   exists e,
     validateTypedSignMessageDataV1 toStr hashEntries messageData = Throw e).
Proof.
  split; [| split; [| apply completion_unit_cases]].
  - unfold validateTypedSignMessageDataV1. split.
    + destruct (fromIsInvalid (from messageData)) eqn:Hfrom; [discriminate |].
      apply fromIsInvalid_false_iff in Hfrom.
      destruct Hfrom as (a & Ha & Hne & Hvalid).
      destruct (data messageData) as [| | b | z | | text | items | fields];
        cbn [truthy isArray negb orb]; try discriminate.
      * destruct b; discriminate.
      * destruct (negb (negb (z =? 0)%Z)); discriminate.
      * destruct (negb match text with [] => false | _ :: _ => true end);
          discriminate.
      * destruct (typedSignatureHash hashEntries items) as [h |] eqn:Hhash;
          [| discriminate].
        intros _. exists a, items, h. repeat split; try assumption.
        intros ->. discriminate Hhash.
    + intros (a & items & h & Ha & Hne & Hvalid & Hd & _ & Hhash).
      assert (Hfrom : fromIsInvalid (from messageData) = false).
      { apply fromIsInvalid_false_iff. exists a. repeat split; assumption. }
      rewrite Hfrom, Hd. cbn [truthy isArray negb orb]. rewrite Hhash.
      reflexivity.
  - intros items Hfrom Hd Hhash. unfold validateTypedSignMessageDataV1.
    rewrite Hfrom, Hd. cbn [truthy isArray negb orb]. rewrite Hhash.
    reflexivity.
Qed.

(** X2: an empty array passes [!data || !Array.isArray(data)] (an array is
    truthy) and is refused by the hash. *)
Lemma validateTypedSignMessageDataV1_empty_array (a : jsstring) :
  a <> [] -> isValidAddress a = true ->
  validateTypedSignMessageDataV1 toStr hashEntries (mkParams (JsArray []) (JsString a))
  = Throw (JS.mkError (js "Expected EIP712 typed data.")).
Proof.
  intros Hne Hvalid. unfold validateTypedSignMessageDataV1. cbn [from data].
  assert (Hfrom : fromIsInvalid (JsString a) = false).
  { apply fromIsInvalid_false_iff. exists a. repeat split; assumption. }
  rewrite Hfrom. reflexivity.
Qed.

End ValidationProps.

(** The empty array, with the address of the test as [from]. *)
Lemma validateTypedSignMessageDataV1_empty_array_witness :
  validateTypedSignMessageDataV1 (fun _ => js "[]")
    (fun items => Some (List.length items))
    (mkParams (JsArray [])
       (JsString (js "0x51253087e6f8358b5f10c0a94315d69db3357859")))
  = Throw (JS.mkError (js "Expected EIP712 typed data.")).
Proof.
  apply (@validateTypedSignMessageDataV1_empty_array (fun _ => js "[]") nat
           (fun items => Some (List.length items))
           (js "0x51253087e6f8358b5f10c0a94315d69db3357859")).
  - discriminate.
  - reflexivity.
Defined.

(** ** safelyExecute *)

(** C8, counterexample.  An operation that rejects and a retry callback
    that throws: the promise of [safelyExecute] is rejected with what the
    callback threw. *)
Lemma safelyExecute_rejects_when_retry_throws :
  safelyExecute (V := nat) (E := nat) (Heap := unit)
    (fun w => (Returns (Rejected 1%nat), w)) false
    (Some (fun e w => (Throws (e + 1)%nat, w))) (mkWorld [] tt)
  = (Rejected 2%nat, mkWorld [] tt).
Proof. reflexivity. Qed.

Section SafelyExecuteProps.

Variables V E Heap : Type.

Lemma onError_resolves (logError : bool) (retry : option (Retry E Heap))
    (error : E) (w : World E Heap) :
  retryReturns retry ->
  @onError V E Heap logError retry error w
  = (Fulfilled None, afterCatch logError retry error w).
Proof.
  intros Hret. unfold onError, afterCatch.
  destruct retry as [r |]; [| reflexivity].
  destruct (Hret r error (if logError then console_error error w else w) eq_refl)
    as [w' Hr].
  rewrite Hr. reflexivity.
Qed.

(** C8 (amended): for every operation and every retry callback that returns
    when it is called, [safelyExecute] never rejects: when the operation
    resolves with [v] it resolves with [v]; when the operation rejects (or
    throws) with [error] it runs the [catch] block, which calls [retry] with
    [error] when one is supplied, and resolves with [undefined]. *)
Theorem safelyExecute_never_rejects (operation : Operation V E Heap)
    (logError : bool) (retry : option (Retry E Heap)) (w : World E Heap) :
  retryReturns retry ->
  (forall e w', safelyExecute operation logError retry w <> (Rejected e, w')) /\
  (forall v w1,
     operation w = (Returns (Fulfilled v), w1) ->
     safelyExecute operation logError retry w = (Fulfilled (Some v), w1)) /\
  (forall error w1,
     operation w = (Returns (Rejected error), w1) \/
     operation w = (Throws error, w1) ->
     safelyExecute operation logError retry w
     = (Fulfilled None, afterCatch logError retry error w1)).
Proof.
  intros Hret. unfold safelyExecute.
  destruct (operation w) as [[[v | error |] | error] w1] eqn:Hop.
  - repeat split; try discriminate.
    + intros v' w1' H. inversion H. reflexivity.
    + intros error w1' [H | H]; discriminate H.
  - rewrite (onError_resolves logError error w1 Hret).
    repeat split; try discriminate.
    intros error' w1' [H | H]; inversion H. reflexivity.
  - repeat split; try discriminate.
    intros error w1' [H | H]; discriminate H.
  - rewrite (onError_resolves logError error w1 Hret).
    repeat split; try discriminate.
    intros error' w1' [H | H]; inversion H. reflexivity.
Qed.

End SafelyExecuteProps.

(** C8, witness.  A callback that counts its calls in the heap: after a rejected
    operation the promise resolves with [undefined], the error is logged and
    the callback has run once. *)
Lemma safelyExecute_never_rejects_witness :
  (forall e w',
     safelyExecute (V := nat) (E := nat) (Heap := nat)
       (fun w => (Returns (Rejected 7%nat), w)) true
       (Some (fun _ w => (Returns tt, mkWorld (console w) (S (heap w)))))
       (mkWorld [] 0%nat)
     <> (Rejected e, w')) /\
  safelyExecute (V := nat) (E := nat) (Heap := nat)
    (fun w => (Returns (Rejected 7%nat), w)) true
    (Some (fun _ w => (Returns tt, mkWorld (console w) (S (heap w)))))
    (mkWorld [] 0%nat)
  = (Fulfilled None, mkWorld [7%nat] 1%nat).
Proof.
  assert (Hret : retryReturns
            (Some (fun (_ : nat) (w : World nat nat) =>
                     (Returns (E := nat) tt, mkWorld (console w) (S (heap w)))))).
  { intros r error w H. inversion H. eexists. reflexivity. }
  pose proof (@safelyExecute_never_rejects nat nat nat
                (fun w => (Returns (Rejected 7%nat), w)) true _
                (mkWorld [] 0%nat) Hret) as [Hnever [_ Hcatch]].
  split.
  - exact Hnever.
  - exact (Hcatch 7%nat (mkWorld [] 0%nat) (or_introl eq_refl)).
Defined.

End UtilProps.

(* ================================================================= *)
(** * Properties of the keyring controller *)
(* ================================================================= *)

Module KeyringProps.

Import JS KeyringController Vocabulary.

Unset Implicit Arguments.

Section Invariants.

Context {provider : Provider} {validation : Validation}.

(** The two sides of the provider contract that unlocking rests on: what
    was encrypted under a password decrypts to itself under that password,
    and decryption under any other password fails. *)
Hypothesis decrypt_encrypt :
  forall ks pw, decrypt (encrypt ks pw) pw = inr ks.
Hypothesis decrypt_wrong :
  forall ks pw wrong, wrong <> pw ->
  exists msg, decrypt (encrypt ks pw) wrong = inl msg.

Lemma Inv_vaultOk (st : State) : Inv st -> vaultOk st.
Proof.
  unfold Inv. destruct (lock st) as [| pw].
  - intros [_ H]. exact H.
  - intros [Hne Hv]. right. exists (memKeyrings st), pw. split; assumption.
Qed.

Lemma Inv_persisted (pw : password) (ks : list Keyring) :
  ks <> [] -> Inv (mkState (Unlocked pw) ks (Some (encrypt ks pw))).
Proof. intros Hne. split; [exact Hne | reflexivity]. Qed.

Lemma stateAfter_persist (pw : password) (ks : list Keyring) (st : State) :
  stateAfter (persist pw ks) st = mkState (Unlocked pw) ks (Some (encrypt ks pw)).
Proof. reflexivity. Qed.

(** The primary keyring survives every removal. *)
Lemma removeFrom_primary_stays (ks ks' : list Keyring) (addr : address) :
  removeFrom true ks addr = Some ks' -> ks' <> [].
Proof.
  destruct ks as [| k rest]; cbn [removeFrom]; [discriminate |].
  destruct (owns addr k).
  - destruct (filter (fun a => negb (jsstring_eqb addr a)) (accounts k));
      intros H; inversion H; discriminate.
  - destruct (removeFrom false rest addr); cbn [option_map];
      intros H; inversion H; discriminate.
Qed.

(** Decryption succeeds under the password of the encryption only, and
    gives back what was encrypted. *)
Lemma decrypt_inr (ks0 ks : list Keyring) (pw0 pw : password) :
  decrypt (encrypt ks0 pw0) pw = inr ks -> pw = pw0 /\ ks = ks0.
Proof.
  intros H. destruct (jsstring_eq_dec pw pw0) as [-> | Hne].
  - rewrite decrypt_encrypt in H. inversion H. split; reflexivity.
  - destruct (decrypt_wrong ks0 pw0 pw Hne) as [msg Hmsg]. congruence.
Qed.

Lemma Inv_submitPassword (pw : password) (st : State) :
  Inv st -> Inv (stateAfter (submitPassword pw st) st).
Proof.
  intros HI. unfold submitPassword.
  destruct (Inv_vaultOk st HI) as [Hnone | (ks0 & pw0 & Hne & Hv)].
  - rewrite Hnone. exact HI.
  - rewrite Hv. destruct (decrypt (encrypt ks0 pw0) pw) as [msg | ks] eqn:Hd.
    + exact HI.
    + apply decrypt_inr in Hd. destruct Hd as [-> ->].
      cbn [stateAfter]. split; [exact Hne | reflexivity].
Qed.

Lemma Inv_setLocked (st : State) : Inv st -> Inv (setLocked st).
Proof.
  intros HI. split; [reflexivity |]. apply Inv_vaultOk in HI. exact HI.
Qed.

Lemma Inv_addNewAccount (st : State) :
  Inv st -> Inv (stateAfter (addNewAccount st) st).
Proof.
  intros HI. unfold addNewAccount, requireUnlocked.
  destruct (lock st) as [| pw]; cbn [bind]; [exact HI |].
  destruct (memKeyrings st) as [| k rest]; [exact HI |].
  rewrite stateAfter_persist. apply Inv_persisted. discriminate.
Qed.

Lemma Inv_appendKeyring (pw : password) (key : jsstring) (st : State) :
  Inv (stateAfter (appendKeyring pw key st) st).
Proof.
  unfold appendKeyring. rewrite stateAfter_persist. apply Inv_persisted.
  intros H. apply app_eq_nil in H. destruct H as [_ H]. discriminate.
Qed.

Lemma Inv_import (req : ImportRequest) (st : State) :
  Inv st -> Inv (stateAfter (importAccountWithStrategy req st) st).
Proof.
  intros HI. unfold importAccountWithStrategy, requireUnlocked.
  destruct req as [args | json filePw].
  - destruct args as [| [| c key] rest]; [exact HI | exact HI |].
    destruct (isValidPrivateKey (c :: key)); [| exact HI].
    destruct (lock st) as [| pw]; cbn [bind]; [exact HI |].
    apply Inv_appendKeyring.
  - destruct (lock st) as [| pw]; cbn [bind]; [exact HI |].
    destruct (decryptKeyfile json filePw) as [msg | key]; [exact HI |].
    apply Inv_appendKeyring.
Qed.

Lemma Inv_removeAccount (addr : address) (st : State) :
  Inv st -> Inv (stateAfter (removeAccount addr st) st).
Proof.
  intros HI. unfold removeAccount, requireUnlocked.
  destruct (lock st) as [| pw]; cbn [bind]; [exact HI |].
  destruct (removeFrom true (memKeyrings st) addr) as [ks |] eqn:Hrm;
    [| exact HI].
  rewrite stateAfter_persist. apply Inv_persisted.
  exact (removeFrom_primary_stays _ _ _ Hrm).
Qed.

Lemma Inv_run (a : Action) (st : State) : Inv st -> Inv (run a st).
Proof.
  intros HI. destruct a; cbn [run].
  - unfold createNewVaultAndKeychain. rewrite stateAfter_persist.
    apply Inv_persisted. discriminate.
  - unfold createNewVaultAndRestore.
    destruct (isValidMnemonic seedPhrase); [| exact HI].
    rewrite stateAfter_persist. apply Inv_persisted. discriminate.
  - apply Inv_submitPassword. exact HI.
  - apply Inv_setLocked. exact HI.
  - apply Inv_addNewAccount. exact HI.
  - apply Inv_import. exact HI.
  - apply Inv_removeAccount. exact HI.
Qed.

Lemma reachable_Inv (st : State) : reachable st -> Inv st.
Proof.
  induction 1 as [| a st _ IH].
  - split; [reflexivity | left; reflexivity].
  - apply Inv_run. exact IH.
Qed.

(** C1: in every reachable state of the controller, [isUnlocked] of the
    PublicState is true if and only if the in-memory keyring sequence is not
    empty, and false if and only if it is empty (it has been cleared); after
    [setLocked()] the controller reports [isUnlocked() = false], the
    sequence is empty and the persisted vault is untouched. *)
Theorem isUnlocked_iff_keyrings_nonempty (st : State) :
  reachable st ->
  (isUnlocked (publicState st) = true <-> memKeyrings st <> []) /\
  (isUnlocked (publicState st) = false <-> memKeyrings st = []) /\
  isUnlockedNow (setLocked st) = false /\
  memKeyrings (setLocked st) = [] /\
  vault (setLocked st) = vault st.
Proof.
  intros Hreach. apply reachable_Inv in Hreach.
  unfold Inv in Hreach. unfold isUnlockedNow, publicState. cbn [isUnlocked].
  destruct (lock st) as [| pw].
  - destruct Hreach as [Hnil _]. rewrite Hnil.
    repeat split; try discriminate; try reflexivity; try congruence.
  - destruct Hreach as [Hne _].
    repeat split; try discriminate; try reflexivity; try congruence.
Qed.

(** C2: for the password [pw] the vault was written under, [setLocked()]
    and then [submitPassword(pw)] succeeds and yields a PublicState equal to
    the PublicState before locking; [submitPassword] with any other password
    fails with a CryptoError, leaves the state as it was, and the controller
    remains Locked. *)
Theorem lock_then_submitPassword (st : State) (pw : password) :
  reachable st ->
  isUnlocked (publicState st) = true ->
  vaultUnder st pw ->
  (exists st',
     submitPassword pw (setLocked st) = Ok (publicState st, st') /\
     publicState st' = publicState st /\
     memKeyrings st' = memKeyrings st) /\
  (forall wrong, wrong <> pw ->
     exists msg,
       submitPassword wrong (setLocked st)
       = Err (KeyringController.mkError CryptoError msg) /\
       run (DoSubmitPassword wrong) (setLocked st) = setLocked st /\
       isUnlockedNow (run (DoSubmitPassword wrong) (setLocked st)) = false).
Proof.
  intros Hreach Hunlocked [ks Hunder].
  apply reachable_Inv in Hreach. unfold Inv in Hreach.
  unfold publicState in Hunlocked. cbn [isUnlocked] in Hunlocked.
  destruct (lock st) as [| pw0] eqn:Hlock; [discriminate |].
  destruct Hreach as [Hne Hvault].
  assert (Hsame : pw = pw0 /\ ks = memKeyrings st).
  { apply decrypt_inr. rewrite Hvault in Hunder. inversion Hunder as [Hblob].
    rewrite Hblob. apply decrypt_encrypt. }
  destruct Hsame as [-> ->]. split.
  - eexists. unfold submitPassword. cbn [setLocked vault].
    rewrite Hvault, decrypt_encrypt.
    unfold publicState. cbn [lock memKeyrings]. rewrite Hlock.
    repeat split.
  - intros wrong Hwrong.
    destruct (decrypt_wrong (memKeyrings st) pw0 wrong Hwrong) as [msg Hmsg].
    exists msg. cbn [run]. unfold submitPassword. cbn [setLocked vault].
    rewrite Hvault, Hmsg. repeat split.
Qed.

End Invariants.

Section Operations.

Context {provider : Provider} {validation : Validation}.


(** ** Typed signing *)

Lemma contextTag_contains_prefix (msg : jsstring) :
  contains typedSigningPrefix (contextTag ++ msg).
Proof.
  exists [], (js " " ++ msg). reflexivity.
Qed.

(** C6: [signTypedMessage] with a malformed payload fails, for V1 and for
    V3 and whatever the [from] address, with one error whose message
    contains 'Keyring Controller signTypedMessage:'; and every failure of
    [signTypedMessage] (a payload that is refused, a Locked controller, no
    keyring for [from], a failure of the provider) is such an error: its
    message is the context tag followed by the message of the cause. *)
Theorem signTypedMessage_failures_carry_tag (params : TypedParams)
    (version : TypedVersion) (st : State) :
  (typedPayloadOk version (data params) = false ->
   exists e,
     signTypedMessage params version st = Err e /\
     kind e = ValidationError /\
     contains typedSigningPrefix (errorMessage e)) /\
  (forall e,
     signTypedMessage params version st = Err e ->
     contains typedSigningPrefix (errorMessage e) /\
     exists cause,
       signTypedUnwrapped params version st = Err cause /\
       kind e = kind cause /\
       errorMessage e = contextTag ++ errorMessage cause) /\
  (forall signature,
     signTypedMessage params version st = Ok signature ->
     typedPayloadOk version (data params) = true).
Proof.
  unfold signTypedMessage. split; [| split].
  - intros Hbad. unfold signTypedUnwrapped. rewrite Hbad. cbn [bind].
    eexists. split; [reflexivity |]. split; [reflexivity |].
    apply contextTag_contains_prefix.
  - intros e He.
    destruct (signTypedUnwrapped params version st) as [sig | cause];
      [discriminate |].
    inversion He as [Heq]. cbn [errorMessage kind]. split.
    + apply contextTag_contains_prefix.
    + exists cause. repeat split.
  - intros signature. unfold signTypedUnwrapped.
    destruct (typedPayloadOk version (data params)); [reflexivity |].
    cbn [bind]. discriminate.
Qed.

(** The causes one by one: a Locked controller, an address no keyring
    holds, a failure of the provider. *)
Lemma signTypedMessage_causes (params : TypedParams) (version : TypedVersion)
    (st : State) :
  typedPayloadOk version (data params) = true ->
  (lock st = Locked ->
   signTypedMessage params version st
   = Err (KeyringController.mkError StateError (contextTag ++ lockedText))) /\
  (forall pw, lock st = Unlocked pw ->
   find (owns (from params)) (memKeyrings st) = None ->
   signTypedMessage params version st
   = Err (KeyringController.mkError NotFoundError
            (contextTag ++ notFoundText))) /\
  (forall pw k msg, lock st = Unlocked pw ->
   find (owns (from params)) (memKeyrings st) = Some k ->
   signTyped version (data params) (secret k) (from params) = inl msg ->
   signTypedMessage params version st
   = Err (KeyringController.mkError CryptoError (contextTag ++ msg))) /\
  (forall pw k signature, lock st = Unlocked pw ->
   find (owns (from params)) (memKeyrings st) = Some k ->
   signTyped version (data params) (secret k) (from params) = inr signature ->
   signTypedMessage params version st = Ok signature).
Proof.
  intros Hok. unfold signTypedMessage, signTypedUnwrapped, requireUnlocked, locate.
  rewrite Hok. cbn [bind]. repeat split.
  - intros Hlock. rewrite Hlock. reflexivity.
  - intros pw Hlock Hfind. rewrite Hlock, Hfind. reflexivity.
  - intros pw k msg Hlock Hfind Hsign. rewrite Hlock, Hfind. cbn [bind].
    rewrite Hsign. reflexivity.
  - intros pw k signature Hlock Hfind Hsign. rewrite Hlock, Hfind. cbn [bind].
    rewrite Hsign. reflexivity.
Qed.

(** ** Removing an account *)

Lemma jsstring_eqb_true_iff (a b : jsstring) : jsstring_eqb a b = true <-> a = b.
Proof.
  revert b. induction a as [| x a IH]; intros [| y b]; cbn [jsstring_eqb];
    try (split; [discriminate | discriminate]); [split; reflexivity |].
  rewrite andb_true_iff, N.eqb_eq, IH. split.
  - intros [-> ->]. reflexivity.
  - intros H. inversion H. split; reflexivity.
Qed.










End Operations.

(** ** The scenario of the test file *)

Section ScenarioProps.

Import Scenario.

#[local] Existing Instance standInProvider.
#[local] Existing Instance standInValidation.

Lemma standIn_decrypt_encrypt (ks : list Keyring) (pw : password) :
  decrypt (encrypt ks pw) pw = inr ks.
Proof.
  cbn [decrypt encrypt standInProvider fst snd].
  replace (jsstring_eqb pw pw) with true
    by (symmetry; apply jsstring_eqb_true_iff; reflexivity).
  reflexivity.
Qed.

Lemma standIn_decrypt_wrong (ks : list Keyring) (pw wrong : password) :
  wrong <> pw -> exists msg, decrypt (encrypt ks pw) wrong = inl msg.
Proof.
  intros Hne. cbn [decrypt encrypt standInProvider fst snd].
  destruct (jsstring_eqb wrong pw) eqn:Heq.
  - apply jsstring_eqb_true_iff in Heq. contradiction.
  - eexists. reflexivity.
Qed.

Lemma imported_reachable : reachable imported.
Proof. unfold imported, created. do 2 apply reach_step. apply reach_init. Qed.


(** C1, witness, on the state of the test after an import: Unlocked with two
    keyrings, and Locked with none after [setLocked()]. *)
Lemma isUnlocked_iff_keyrings_nonempty_witness :
  (isUnlocked (publicState imported) = true <-> memKeyrings imported <> []) /\
  (isUnlocked (publicState imported) = false <-> memKeyrings imported = []) /\
  isUnlockedNow (setLocked imported) = false /\
  memKeyrings (setLocked imported) = [] /\
  vault (setLocked imported) = vault imported.
Proof.
  exact (@isUnlocked_iff_keyrings_nonempty standInProvider standInValidation
           standIn_decrypt_encrypt standIn_decrypt_wrong imported
           imported_reachable).
Defined.

(** C2, witness, on the same state: locking and submitting the password of the test
    gives the PublicState back. *)
Lemma lock_then_submitPassword_witness :
  (exists st',
     submitPassword testPassword (setLocked imported)
     = Ok (publicState imported, st') /\
     publicState st' = publicState imported /\
     memKeyrings st' = memKeyrings imported) /\
  (forall wrong, wrong <> testPassword ->
     exists msg,
       submitPassword wrong (setLocked imported)
       = Err (KeyringController.mkError CryptoError msg) /\
       run (DoSubmitPassword wrong) (setLocked imported) = setLocked imported /\
       isUnlockedNow (run (DoSubmitPassword wrong) (setLocked imported)) = false).
Proof.
  apply (@lock_then_submitPassword standInProvider standInValidation
           standIn_decrypt_encrypt standIn_decrypt_wrong imported testPassword).
  - exact imported_reachable.
  - reflexivity.
  - eexists. reflexivity.
Defined.




(** The expectations of the test file, run on the stand-ins. *)
Example test_should_set_locked_correctly :
  isUnlockedNow created = true /\ isUnlockedNow (setLocked created) = false.
Proof. split; vm_compute; reflexivity. Qed.

Example test_should_import_account_with_strategy_privateKey :
  published (importAccountWithStrategy (PrivateKeyStrategy []) created)
  = Err (KeyringController.mkError ValidationError
           (js "Cannot import an empty key.")) /\
  published (importAccountWithStrategy (PrivateKeyStrategy [js "123"]) created)
  = Err (KeyringController.mkError ValidationError
           (js "Cannot import invalid private key.")) /\
  published (importAccountWithStrategy (PrivateKeyStrategy [privateKey]) created)
  = Ok (mkPublicState true (keyringTypes (publicState created))
          (keyrings (publicState created) ++
           [mkPublicKeyring (js "Simple Key Pair") [importedAddress]])).
Proof. repeat split; vm_compute; reflexivity. Qed.

Example test_should_remove_account :
  published (removeAccount importedAddress imported) = Ok (publicState created).
Proof. vm_compute. reflexivity. Qed.

Example test_should_submit_password_and_decrypt :
  published (submitPassword testPassword created) = Ok (publicState created).
Proof. vm_compute. reflexivity. Qed.

Example test_should_fail_when_sign_typed_message_format_is_wrong :
  signTypedMessage (mkTypedParams (JsArray [JsObject []]) importedAddress)
    V1 imported
  = Err (KeyringController.mkError ValidationError
           (js "Keyring Controller signTypedMessage: Expected EIP712 typed data.")) /\
  signTypedMessage (mkTypedParams (JsArray [JsObject []]) importedAddress)
    V3 imported
  = Err (KeyringController.mkError ValidationError
           (js "Keyring Controller signTypedMessage: Expected EIP712 typed data.")).
Proof. split; vm_compute; reflexivity. Qed.

End ScenarioProps.

End KeyringProps.

(* ================================================================= *)
(** * Properties of the other helpers of src/util.ts *)
(* ================================================================= *)

Module HelpersProps.

Import JS BN Numbers Helpers StandIns HexFacts.

Unset Implicit Arguments.

Local Open Scope N_scope.

(** ** Prefixes *)

Lemma addHexPrefix_prefixed (s : jsstring) : isHexPrefixed (addHexPrefix s) = true.
Proof.
  unfold addHexPrefix. destruct (isHexPrefixed s) eqn:H; [exact H | reflexivity].
Qed.

Lemma addHexPrefix_of_prefixed (s : jsstring) :
  isHexPrefixed s = true -> addHexPrefix s = s.
Proof. intros H. unfold addHexPrefix. rewrite H. reflexivity. Qed.

Lemma prefixed_nonempty (s : jsstring) : isHexPrefixed s = true -> s <> [].
Proof. intros H ->. discriminate H. Qed.

(** ** normalizeMessageData, twice *)

Lemma bufferFromUtf8_nonempty (data : jsstring) :
  data <> [] -> bufferFromUtf8 data <> [].
Proof.
  destruct data as [| c rest]; [intros H; contradiction | intros _].
  cbn [bufferFromUtf8].
  destruct (c <? 128); [discriminate |].
  destruct (c <? 2048); [discriminate |].
  destruct (isHighSurrogate c).
  - destruct rest as [| d rest']; [discriminate |].
    destruct (isLowSurrogate d); discriminate.
  - destruct (isLowSurrogate c); discriminate.
Qed.

Lemma bufferToStringHex_nonempty (buf : list N) :
  buf <> [] -> bufferToStringHex buf <> [].
Proof.
  destruct buf as [| b buf]; [intros H; contradiction | intros _].
  discriminate.
Qed.

(** The result is ["0x"] and hex digits, at least one when [data] is not
    empty. *)
Lemma normalizeMessageData_shape (data : jsstring) :
  exists digits,
    Util.normalizeMessageData data = js "0x" ++ digits /\
    forallb isHexDigit digits = true /\
    (data <> [] -> digits <> []).
Proof.
  unfold Util.normalizeMessageData.
  destruct (Util.hexRe (stripHexPrefix data)) eqn:Hre.
  - apply UtilProps.hexRe_true_iff in Hre. destruct Hre as [Hne Hall].
    exists (stripHexPrefix data). unfold addHexPrefix.
    rewrite (all_hex_not_prefixed _ Hall).
    split; [reflexivity |]. split; [exact Hall | intros _; exact Hne].
  - exists (bufferToStringHex (bufferFromUtf8 data)).
    split; [reflexivity |].
    split; [apply UtilProps.bufferToStringHex_all_hex |].
    intros Hne. apply bufferToStringHex_nonempty, bufferFromUtf8_nonempty.
    exact Hne.
Qed.

Lemma normalizeMessageData_of_hex (digits : jsstring) :
  digits <> [] -> forallb isHexDigit digits = true ->
  Util.normalizeMessageData (js "0x" ++ digits) = js "0x" ++ digits.
Proof.
  intros Hne Hall. unfold Util.normalizeMessageData.
  rewrite UtilProps.strip_add_prefix.
  assert (Hre : Util.hexRe digits = true)
    by (apply UtilProps.hexRe_true_iff; split; assumption).
  rewrite Hre. unfold addHexPrefix.
  rewrite (all_hex_not_prefixed _ Hall). reflexivity.
Qed.

(** X3: normalising a message that is not empty a second time changes
    nothing. *)
Theorem normalizeMessageData_idempotent (data : jsstring) :
  data <> [] ->
  Util.normalizeMessageData (Util.normalizeMessageData data)
  = Util.normalizeMessageData data.
Proof.
  intros Hne.
  destruct (normalizeMessageData_shape data) as (digits & Heq & Hall & Hdigits).
  rewrite Heq. apply normalizeMessageData_of_hex; [exact (Hdigits Hne) | exact Hall].
Qed.

Lemma normalizeMessageData_idempotent_witness :
  Util.normalizeMessageData (Util.normalizeMessageData (js "Hello from test"))
  = Util.normalizeMessageData (js "Hello from test").
Proof.
  apply (normalizeMessageData_idempotent (js "Hello from test")). discriminate.
Defined.

(** The empty message is the exception: it becomes ["0x"], and ["0x"]
    becomes the encoding of its two characters. *)
Example normalizeMessageData_empty_twice :
  Util.normalizeMessageData [] = js "0x" /\
  Util.normalizeMessageData (Util.normalizeMessageData []) = js "0x3078".
Proof. split; reflexivity. Qed.

(** ** hexToText *)

Lemma hexNibble_hexChar (d : N) : d < 16 -> hexNibble (hexChar d) = Some d.
Proof.
  intros Hd.
  assert (Hcases : d = 0 \/ d = 1 \/ d = 2 \/ d = 3 \/ d = 4 \/ d = 5 \/
                   d = 6 \/ d = 7 \/ d = 8 \/ d = 9 \/ d = 10 \/ d = 11 \/
                   d = 12 \/ d = 13 \/ d = 14 \/ d = 15) by lia.
  repeat (destruct Hcases as [-> | Hcases]; [reflexivity |]).
  subst d. reflexivity.
Qed.

(** The documented decoder gives back the bytes that were printed. *)
Lemma decodeHexPairs_bufferToStringHex (buf : list N) :
  Forall (fun b => b < 256) buf ->
  decodeHexPairs (bufferToStringHex buf) = buf.
Proof.
  unfold bufferToStringHex. induction 1 as [| b buf Hb _ IH]; [reflexivity |].
  cbn [flat_map byteToHex app decodeHexPairs].
  rewrite !hexNibble_hexChar by (apply N.mod_lt; lia).
  rewrite IH. f_equal.
  rewrite (N.mod_small (b / 16) 16)
    by (apply N.Div0.div_lt_upper_bound; lia).
  pose proof (N.div_mod b 16). lia.
Qed.

Section HexToTextProps.

Variable bufferFromHex : jsstring -> option (list N).
Variable utf8Decode : list N -> jsstring.

(** X4: for a message [data] that is not itself hex, when the two decoders
    of [Buffer] invert the two encoders on [data], [hexToText] gives back
    [data] from [normalizeMessageData data]. *)
Theorem hexToText_normalizeMessageData (data : jsstring) :
  Util.hexRe (stripHexPrefix data) = false ->
  bufferFromHex (bufferToStringHex (bufferFromUtf8 data))
  = Some (bufferFromUtf8 data) ->
  utf8Decode (bufferFromUtf8 data) = data ->
  hexToText bufferFromHex utf8Decode (Util.normalizeMessageData data) = data.
Proof.
  intros Hre Hhex Hutf8. unfold Util.normalizeMessageData. rewrite Hre.
  unfold hexToText, bufferToHex. rewrite UtilProps.strip_add_prefix.
  rewrite Hhex. exact Hutf8.
Qed.

(** When the hex decoder throws, [hexToText] returns its argument. *)
Lemma hexToText_on_throw (hex : jsstring) :
  bufferFromHex (stripHexPrefix hex) = None ->
  hexToText bufferFromHex utf8Decode hex = hex.
Proof. intros H. unfold hexToText. rewrite H. reflexivity. Qed.

End HexToTextProps.

Lemma hexToText_normalizeMessageData_witness :
  hexToText (fun s => Some (decodeHexPairs s)) asciiDecode
    (Util.normalizeMessageData (js "Hello from test"))
  = js "Hello from test".
Proof.
  apply (hexToText_normalizeMessageData (fun s => Some (decodeHexPairs s))
           asciiDecode (js "Hello from test")).
  - reflexivity.
  - reflexivity.
  - reflexivity.
Defined.

(** ** fractionBN *)

Section FractionBNProps.

Variable Arg : Type.
Variable newBN : Arg -> option BN.BN.

(** X5: a fraction whose numerator and denominator are the same number, not
    zero, gives the target back. *)
Theorem fractionBN_same_fraction (targetBN : BN.BN) (x : Arg) (b : BN.BN) :
  newBN x = Some b -> b <> 0%Z ->
  fractionBN newBN targetBN x x = Some targetBN.
Proof.
  intros Hx Hb. unfold fractionBN, BN_div. rewrite Hx.
  replace (b =? 0)%Z with false by (symmetry; apply Z.eqb_neq; exact Hb).
  rewrite Z.quot_mul by exact Hb. reflexivity.
Qed.

(** X6: a denominator that is zero makes [fractionBN] throw, whatever the
    numerator; for a target and a numerator that are not negative and a
    positive denominator the result is the product divided and rounded
    down: it is at most the exact quotient and less than one below it. *)
Theorem fractionBN_rounds_down (targetBN : BN.BN) (numerator denominator : Arg) :
  (newBN denominator = Some 0%Z ->
   fractionBN newBN targetBN numerator denominator = None) /\
  (forall a b,
     newBN numerator = Some a -> newBN denominator = Some b ->
     (0 <= targetBN)%Z -> (0 <= a)%Z -> (0 < b)%Z ->
     exists r,
       fractionBN newBN targetBN numerator denominator = Some r /\
       (0 <= r)%Z /\ (r * b <= targetBN * a)%Z /\
       (targetBN * a < (r + 1) * b)%Z).
Proof.
  unfold fractionBN, BN_div. split.
  - intros Hd. rewrite Hd. destruct (newBN numerator); reflexivity.
  - intros a b Hn Hd Ht Ha Hb. rewrite Hn, Hd.
    replace (b =? 0)%Z with false by (symmetry; apply Z.eqb_neq; lia).
    exists (Z.quot (targetBN * a) b). split; [reflexivity |].
    assert (Hprod : (0 <= targetBN * a)%Z) by (apply Z.mul_nonneg_nonneg; assumption).
    rewrite Z.quot_div_nonneg by lia.
    pose proof (Z.div_mod (targetBN * a) b ltac:(lia)) as Hdm.
    pose proof (Z.mod_pos_bound (targetBN * a) b Hb) as Hmod.
    pose proof (Z.div_pos (targetBN * a) b Hprod Hb) as Hq.
    repeat split; nia.
Qed.

End FractionBNProps.

Lemma fractionBN_same_fraction_witness :
  fractionBN newBNofInteger 21000%Z 10%Z 10%Z = Some 21000%Z.
Proof.
  apply (fractionBN_same_fraction Z newBNofInteger 21000%Z 10%Z 10%Z).
  - reflexivity.
  - discriminate.
Defined.

Example fractionBN_examples :
  fractionBN newBNofInteger 21000%Z 11%Z 10%Z = Some 23100%Z /\
  fractionBN newBNofInteger 7%Z 1%Z 2%Z = Some 3%Z /\
  fractionBN newBNofInteger (-7)%Z 1%Z 2%Z = Some (-3)%Z /\
  fractionBN newBNofInteger 7%Z 1%Z 0%Z = None.
Proof. repeat split. Qed.

(** ** validatePersonalSignMessageData *)

Section PersonalSignProps.

Variable toStr : JsValue -> jsstring.

(** X12: [validatePersonalSignMessageData] returns if and only if [from]
    is a string that is a valid address and [data] is a string that is not
    empty; otherwise it throws. *)
Theorem validatePersonalSignMessageData_accepts_iff
    (messageData : Util.TypedMessageParams) :
  (validatePersonalSignMessageData toStr messageData = Normal tt <->
   exists a text,
     Util.from messageData = JsString a /\ isValidAddress a = true /\
     Util.data messageData = JsString text /\ text <> []) /\
  (validatePersonalSignMessageData toStr messageData <> Normal tt ->
   exists e, validatePersonalSignMessageData toStr messageData = Throw e).
Proof.
  split; [| apply UtilProps.completion_unit_cases].
  unfold validatePersonalSignMessageData. split.
  - destruct (Util.fromIsInvalid (Util.from messageData)) eqn:Hfrom;
      [discriminate |].
    apply UtilProps.fromIsInvalid_false_iff in Hfrom.
    destruct Hfrom as (a & Ha & _ & Hvalid).
    destruct (Util.data messageData) as [| | b | z | | text | items | fields];
      cbn [truthy isString negb orb]; try discriminate.
    + destruct b; discriminate.
    + destruct (negb (negb (z =? 0)%Z)); discriminate.
    + destruct text as [| c text]; [discriminate |].
      intros _. exists a, (c :: text). repeat split; try assumption.
      discriminate.
  - intros (a & text & Ha & Hvalid & Hd & Htext).
    assert (Hfrom : Util.fromIsInvalid (Util.from messageData) = false).
    { apply UtilProps.fromIsInvalid_false_iff. exists a.
      repeat split; try assumption. intros ->. discriminate Hvalid. }
    rewrite Hfrom, Hd. destruct text as [| c text]; [contradiction |].
    reflexivity.
Qed.

End PersonalSignProps.

(** ** validateTokenToWatch *)

Section TokenProps.

Variable numberToString : JsNum -> jsstring.

(** X13: [validateTokenToWatch] returns if and only if the address is a
    valid address, the symbol has from one to six characters, and the
    decimals are a finite number from 0 to 36; the number need not be an
    integer. *)
Theorem validateTokenToWatch_accepts_iff (token : Token) :
  validateTokenToWatch numberToString token = Normal tt <->
  exists a s q,
    address token = Some a /\ isValidAddress a = true /\
    symbol token = Some s /\ s <> [] /\ (List.length s <= 6)%nat /\
    decimals token = Some (NumFinite q) /\
    QArith_base.Qle (QArith_base.inject_Z 0) q /\
    QArith_base.Qle q (QArith_base.inject_Z 36).
Proof.
  unfold validateTokenToWatch. split.
  - destruct (address token) as [[| a0 a] |]; try discriminate.
    destruct (symbol token) as [[| s0 s] |]; try discriminate.
    destruct (decimals token) as [d |]; try discriminate.
    destruct (List.length (s0 :: s) <? 7)%nat eqn:Hlen; [| discriminate].
    cbn [negb]. apply Nat.ltb_lt in Hlen.
    destruct d as [| | | q]; cbn [numIsNaN numGt numLt orb]; try discriminate.
    destruct (QArith_base.Qle_bool q (QArith_base.inject_Z 36)) eqn:Hhi;
      [| discriminate].
    destruct (QArith_base.Qle_bool (QArith_base.inject_Z 0) q) eqn:Hlo;
      [| discriminate].
    cbn [negb orb].
    destruct (isValidAddress (a0 :: a)) eqn:Ha; [| discriminate].
    intros _. exists (a0 :: a), (s0 :: s), q.
    apply QArith_base.Qle_bool_iff in Hhi.
    apply QArith_base.Qle_bool_iff in Hlo.
    repeat split; try assumption; try discriminate. lia.
  - intros (a & s & q & Ha & Hvalid & Hs & Hne & Hlen & Hd & Hlo & Hhi).
    rewrite Ha, Hs, Hd.
    destruct a as [| a0 a]; [discriminate Hvalid |].
    destruct s as [| s0 s]; [contradiction |].
    replace (List.length (s0 :: s) <? 7)%nat with true
      by (symmetry; apply Nat.ltb_lt; lia).
    cbn [negb numIsNaN numGt numLt orb].
    apply QArith_base.Qle_bool_iff in Hhi.
    apply QArith_base.Qle_bool_iff in Hlo.
    rewrite Hhi, Hlo, Hvalid. reflexivity.
Qed.

End TokenProps.

(** A token with one and a half decimals passes; one with seven characters
    in its symbol, with no decimals or with [NaN] does not. *)
Example validateTokenToWatch_examples :
  validateTokenToWatch printSmallNumber
    (mkToken (Some (js "0x51253087e6f8358b5f10c0a94315d69db3357859"))
       (Some (js "TKN")) (Some (NumFinite (QArith_base.Qmake 3 2))))
  = Normal tt /\
  validateTokenToWatch printSmallNumber
    (mkToken (Some (js "0x51253087e6f8358b5f10c0a94315d69db3357859"))
       (Some (js "TOOLONG")) (Some (NumFinite (QArith_base.inject_Z 18))))
  = Throw (JS.mkError (js "Invalid symbol TOOLONG more than six characters")) /\
  validateTokenToWatch printSmallNumber
    (mkToken (Some (js "0x51253087e6f8358b5f10c0a94315d69db3357859"))
       (Some (js "TKN")) None)
  = Throw (JS.mkError
             (js "Cannot suggest token without address, symbol, and decimals")) /\
  validateTokenToWatch printSmallNumber
    (mkToken (Some (js "0x51253087e6f8358b5f10c0a94315d69db3357859"))
       (Some (js "TKN")) (Some NumNaN))
  = Throw (JS.mkError
             (js "Invalid decimals NaN must be at least 0, and not over 36")).
Proof. repeat split. Qed.

(** ** isSmartContractCode *)

(** X14: [isSmartContractCode] is false exactly on the empty string, on
    ['0x'] and on ['0x0']. *)
Theorem isSmartContractCode_false_iff (code : jsstring) :
  isSmartContractCode code = false <->
  code = [] \/ code = js "0x" \/ code = js "0x0".
Proof.
  unfold isSmartContractCode. destruct code as [| c code].
  - split; [intros _; left; reflexivity | reflexivity].
  - rewrite andb_false_iff, !negb_false_iff,
      !KeyringProps.jsstring_eqb_true_iff.
    split.
    + intros [H | H]; [right; left | right; right]; exact H.
    + intros [H | [H | H]]; [discriminate H | left; exact H | right; exact H].
Qed.

(** ** normalizeEnsName *)

Lemma splitDots_nonempty (s : jsstring) : splitDots s <> [].
Proof.
  destruct s as [| c s]; cbn [splitDots]; [discriminate |].
  destruct (c =? 46); [discriminate |].
  destruct (splitDots s); discriminate.
Qed.

(** Splitting at the dots and joining with dots gives the string back. *)
Lemma joinDots_splitDots (s : jsstring) : joinDots (splitDots s) = s.
Proof.
  induction s as [| c s IH]; [reflexivity |].
  cbn [splitDots]. destruct (N.eqb_spec c 46) as [-> | Hc].
  - pose proof (splitDots_nonempty s) as Hne.
    cbn [joinDots]. destruct (splitDots s) as [| l ls]; [contradiction |].
    cbn [app]. rewrite IH. reflexivity.
  - pose proof (splitDots_nonempty s) as Hne.
    destruct (splitDots s) as [| l ls]; [contradiction |].
    cbn [joinDots] in IH |- *. destruct ls as [| l' ls'].
    + rewrite IH. reflexivity.
    + cbn [app]. rewrite IH. reflexivity.
Qed.

Lemma nonEmptyAll_true (p : N -> bool) (s : jsstring) :
  nonEmptyAll p s = true -> s <> [] /\ forallb p s = true.
Proof.
  destruct s as [| c s]; cbn [nonEmptyAll]; [discriminate |].
  intros H. split; [discriminate | exact H].
Qed.

Section EnsProps.

Variable ensNormalize : jsstring -> option jsstring.

(** X15: a name that [normalizeEnsName] returns is the normalised form of
    the trimmed argument, and it is made of labels joined by dots: the
    last is [eth] or [test], the one before it has seven characters or
    more, the others are not empty, and all are made of letters, digits,
    underscores and hyphens.  The empty string gives [null]. *)
Theorem normalizeEnsName_shape (ensName n : jsstring) :
  normalizeEnsName ensNormalize ensName = Some n ->
  ensName <> [] /\
  ensNormalize (trim ensName) = Some n /\
  exists subdomains name tld,
    n = joinDots (subdomains ++ [name; tld]) /\
    (tld = js "eth" \/ tld = js "test") /\
    (7 <= List.length name)%nat /\
    forallb isLabelChar name = true /\
    Forall (fun label => label <> [] /\ forallb isLabelChar label = true)
           subdomains.
Proof.
  unfold normalizeEnsName. destruct ensName as [| c0 rest]; [discriminate |].
  destruct (ensNormalize (trim (c0 :: rest))) as [normalized |];
    [| discriminate].
  destruct (ensNameRe normalized) eqn:Hre; [| discriminate].
  intros H. inversion H. subst normalized.
  split; [discriminate |]. split; [reflexivity |].
  unfold ensNameRe, labelsMatch in Hre.
  destruct (rev (splitDots n)) as [| tld [| name subs]] eqn:Hrev;
    try discriminate.
  apply andb_true_iff in Hre. destruct Hre as [Hre Hsubs].
  apply andb_true_iff in Hre. destruct Hre as [Hre Hlen].
  apply andb_true_iff in Hre. destruct Hre as [Htld Hname].
  exists (rev subs), name, tld. repeat split.
  - rewrite <- (joinDots_splitDots n) at 1.
    rewrite <- (rev_involutive (splitDots n)), Hrev.
    cbn [rev]. rewrite <- app_assoc. reflexivity.
  - apply orb_true_iff in Htld.
    destruct Htld as [E | E]; apply KeyringProps.jsstring_eqb_true_iff in E;
      [left | right]; exact E.
  - apply Nat.leb_le. exact Hlen.
  - exact Hname.
  - apply Forall_forall. intros label Hin. apply in_rev in Hin.
    rewrite forallb_forall in Hsubs. apply nonEmptyAll_true, Hsubs. exact Hin.
Qed.

End EnsProps.

Lemma normalizeEnsName_shape_witness :
  js "  MetaMask.eth " <> [] /\
  lowerCaseNormalize (trim (js "  MetaMask.eth ")) = Some (js "metamask.eth") /\
  exists subdomains name tld,
    js "metamask.eth" = joinDots (subdomains ++ [name; tld]) /\
    (tld = js "eth" \/ tld = js "test") /\
    (7 <= List.length name)%nat /\
    forallb isLabelChar name = true /\
    Forall (fun label => label <> [] /\ forallb isLabelChar label = true)
           subdomains.
Proof.
  apply (normalizeEnsName_shape lowerCaseNormalize (js "  MetaMask.eth ")
           (js "metamask.eth")).
  reflexivity.
Defined.

Example normalizeEnsName_examples :
  normalizeEnsName lowerCaseNormalize (js "metamask.eth") = Some (js "metamask.eth") /\
  normalizeEnsName lowerCaseNormalize (js "wallet.metamask.test")
  = Some (js "wallet.metamask.test") /\
  normalizeEnsName lowerCaseNormalize (js "short.eth") = None /\
  normalizeEnsName lowerCaseNormalize (js "metamask.com") = None /\
  normalizeEnsName lowerCaseNormalize (js ".metamask.eth") = None /\
  normalizeEnsName lowerCaseNormalize [] = None /\
  normalizeEnsName (fun _ => None) (js "metamask.eth") = None.
Proof. repeat split. Qed.

(** ** getBuyURL *)

Section GetBuyURLProps.

Variable numberToString : JsNum -> jsstring.

(** X16: [getBuyURL] without a network code is [getBuyURL('1')]; it is
    [undefined] exactly for the codes other than 1, 3, 4, 5 and 42; for the
    codes other than 1 the URL depends on neither the address nor the
    amount; and for network 1 a missing address is printed into the URL as
    [undefined]. *)
Theorem getBuyURL_networks :
  (forall address amount,
     getBuyURL numberToString None address amount
     = getBuyURL numberToString (Some (js "1")) address amount) /\
  (forall code address amount,
     getBuyURL numberToString (Some code) address amount = None <->
     ~ In code [js "1"; js "3"; js "4"; js "5"; js "42"]) /\
  (forall code address amount,
     code <> js "1" ->
     getBuyURL numberToString (Some code) address amount
     = getBuyURL numberToString (Some code) None None) /\
  (forall amount,
     exists start,
       getBuyURL numberToString (Some (js "1")) None amount
       = Some (start ++ js "&address=undefined&crypto_currency=ETH")).
Proof.
  repeat split.
  - unfold getBuyURL.
    destruct (KeyringController.jsstring_eqb code (js "1")) eqn:E1;
      [discriminate |].
    destruct (KeyringController.jsstring_eqb code (js "3")) eqn:E3;
      [discriminate |].
    destruct (KeyringController.jsstring_eqb code (js "4")) eqn:E4;
      [discriminate |].
    destruct (KeyringController.jsstring_eqb code (js "5")) eqn:E5;
      [discriminate |].
    destruct (KeyringController.jsstring_eqb code (js "42")) eqn:E42;
      [discriminate |].
    intros _ Hin.
    assert (Hyes : forall k, code = k ->
                     KeyringController.jsstring_eqb code k = true)
      by (intros k Hk; apply KeyringProps.jsstring_eqb_true_iff; exact Hk).
    destruct Hin as [H | [H | [H | [H | [H | []]]]]];
      symmetry in H; apply Hyes in H; congruence.
  - intros Hnot. unfold getBuyURL.
    assert (Hno : forall k, In k [js "1"; js "3"; js "4"; js "5"; js "42"] ->
                    KeyringController.jsstring_eqb code k = false).
    { intros k Hk.
      destruct (KeyringController.jsstring_eqb code k) eqn:E; [| reflexivity].
      apply KeyringProps.jsstring_eqb_true_iff in E. subst k. contradiction. }
    rewrite !Hno by (cbn [In]; tauto). reflexivity.
  - intros code address amount Hcode. unfold getBuyURL.
    destruct (KeyringController.jsstring_eqb code (js "1")) eqn:E1;
      [| reflexivity].
    apply KeyringProps.jsstring_eqb_true_iff in E1. contradiction.
  - intros amount. unfold getBuyURL.
    change (KeyringController.jsstring_eqb (js "1") (js "1")) with true.
    cbv iota.
    exists (js "https://buy.coinbase.com/?code=9ec56d01-7e81-5017-930c-513daa27bb6a&amount="
            ++ numberToString
                 match amount with
                 | Some a => a
                 | None => NumFinite (QArith_base.inject_Z 5)
                 end).
    rewrite <- !app_assoc. reflexivity.
Qed.

End GetBuyURLProps.

Example getBuyURL_default :
  getBuyURL printSmallNumber None (Some (js "0xabc")) None
  = Some (js "https://buy.coinbase.com/?code=9ec56d01-7e81-5017-930c-513daa27bb6a&amount=5&address=0xabc&crypto_currency=ETH").
Proof. reflexivity. Qed.

End HelpersProps.

(* ================================================================= *)
(** * Properties of the transaction helpers *)
(* ================================================================= *)

Module TransactionProps.

Import JS Numbers Transactions StandIns HexFacts.

Unset Implicit Arguments.

Local Open Scope N_scope.

(** ** Strings without white space *)

Lemma dropWhile_head_false (p : N -> bool) (c : N) (s : jsstring) :
  p c = false -> dropWhile p (c :: s) = c :: s.
Proof. intros H. cbn [dropWhile]. rewrite H. reflexivity. Qed.

Lemma in_dropWhile (p : N -> bool) (c : N) (s : jsstring) :
  In c (dropWhile p s) -> In c s.
Proof.
  induction s as [| x s IH]; cbn [dropWhile]; [intros H; exact H |].
  destruct (p x); [intros H; right; apply IH; exact H | intros H; exact H].
Qed.

Lemma trimEnd_last_false (s : jsstring) (c : N) :
  BN.isWhitespace c = false -> trimEnd (s ++ [c]) = s ++ [c].
Proof.
  intros H. unfold trimEnd. rewrite rev_app_distr. cbn [rev app].
  rewrite (dropWhile_head_false _ _ _ H). cbn [rev].
  rewrite rev_involutive. reflexivity.
Qed.

(** A string with no white space in it is its own trim. *)
Lemma trim_no_whitespace (s : jsstring) :
  forallb (fun c => negb (BN.isWhitespace c)) s = true -> trim s = s.
Proof.
  intros Hall. unfold trim, trimStart.
  assert (Hstart : dropWhile BN.isWhitespace s = s).
  { destruct s as [| c s]; [reflexivity |].
    cbn [forallb] in Hall. apply andb_true_iff in Hall.
    destruct Hall as [Hc _]. apply negb_true_iff in Hc.
    apply dropWhile_head_false. exact Hc. }
  rewrite Hstart.
  destruct s as [| c0 s0]; [reflexivity |].
  destruct (@exists_last _ (c0 :: s0) ltac:(discriminate)) as (front & c & Heq).
  rewrite Heq. apply trimEnd_last_false.
  rewrite Heq, forallb_app in Hall. apply andb_true_iff in Hall.
  destruct Hall as [_ Hc]. cbn [forallb] in Hc.
  rewrite andb_true_r in Hc. apply negb_true_iff. exact Hc.
Qed.

Lemma span_all (p : N -> bool) (s : jsstring) :
  forallb p s = true -> span p s = (s, []).
Proof.
  induction s as [| c s IH]; [reflexivity |].
  cbn [forallb span]. intros H. apply andb_true_iff in H.
  destruct H as [Hc Hs]. rewrite Hc, (IH Hs). reflexivity.
Qed.

Lemma existsb_eqb_false (k : N) (s : jsstring) :
  (forall c, In c s -> c <> k) -> existsb (N.eqb k) s = false.
Proof.
  induction s as [| c s IH]; [reflexivity |].
  intros H. cbn [existsb].
  replace (k =? c) with false
    by (symmetry; apply N.eqb_neq; intros E; apply (H c (or_introl eq_refl));
        symmetry; exact E).
  apply IH. intros x Hx. apply H. right. exact Hx.
Qed.

Lemma existsb_eqb_false_inv (k : N) (s : jsstring) :
  existsb (N.eqb k) s = false -> ~ In k s.
Proof.
  intros H Hin.
  assert (Htrue : existsb (N.eqb k) s = true).
  { apply existsb_exists. exists k. split; [exact Hin | apply N.eqb_refl]. }
  congruence.
Qed.

(** ** Decimal digits *)

Lemma isDecimalDigit_range (c : N) : isDecimalDigit c = true -> 48 <= c <= 57.
Proof.
  unfold isDecimalDigit. intros H. apply andb_true_iff in H.
  destruct H as [H1 H2]. apply N.leb_le in H1. apply N.leb_le in H2. lia.
Qed.

Lemma isDecimalDigit_isHexDigit (c : N) :
  isDecimalDigit c = true -> isHexDigit c = true.
Proof.
  unfold isDecimalDigit, isHexDigit. intros H. rewrite H. reflexivity.
Qed.

Lemma decimal_digits_no_whitespace (digits : jsstring) :
  forallb isDecimalDigit digits = true ->
  forallb (fun c => negb (BN.isWhitespace c)) digits = true.
Proof.
  intros H. apply forallb_forall. intros c Hc.
  rewrite forallb_forall in H. apply negb_true_iff.
  apply hex_digit_not_whitespace, isDecimalDigit_isHexDigit, H. exact Hc.
Qed.

Lemma hex_digits_no_whitespace (digits : jsstring) :
  forallb isHexDigit digits = true ->
  forallb (fun c => negb (BN.isWhitespace c)) digits = true.
Proof.
  intros H. apply forallb_forall. intros c Hc.
  rewrite forallb_forall in H. apply negb_true_iff.
  apply hex_digit_not_whitespace, H. exact Hc.
Qed.

(** [parseInt] of a string of decimal digits is their value. *)
Lemma parseInt10_digits (digits : jsstring) :
  digits <> [] -> forallb isDecimalDigit digits = true ->
  parseInt10 digits = Some (Z.of_N (decimalValue digits)).
Proof.
  intros Hne Hall. unfold parseInt10, trimStart.
  destruct digits as [| c rest]; [contradiction |].
  assert (Hc : 48 <= c <= 57).
  { apply isDecimalDigit_range. cbn [forallb] in Hall.
    apply andb_true_iff in Hall. exact (proj1 Hall). }
  assert (Hws : BN.isWhitespace c = false).
  { apply hex_digit_not_whitespace, isDecimalDigit_isHexDigit.
    cbn [forallb] in Hall. apply andb_true_iff in Hall. exact (proj1 Hall). }
  rewrite (dropWhile_head_false _ _ _ Hws).
  replace (c =? 45) with false by (symmetry; apply N.eqb_neq; lia).
  replace (c =? 43) with false by (symmetry; apply N.eqb_neq; lia).
  rewrite (span_all _ _ Hall). reflexivity.
Qed.

(** A string of decimal digits converts to a number. *)
Lemma toNumberIsNaN_digits (digits : jsstring) :
  digits <> [] -> forallb isDecimalDigit digits = true ->
  toNumberIsNaN digits = false.
Proof.
  intros Hne Hall. unfold toNumberIsNaN.
  rewrite (trim_no_whitespace _ (decimal_digits_no_whitespace _ Hall)).
  destruct digits as [| c rest]; [contradiction |].
  assert (Hc : 48 <= c <= 57).
  { apply isDecimalDigit_range. cbn [forallb] in Hall.
    apply andb_true_iff in Hall. exact (proj1 Hall). }
  replace (c =? 45) with false by (symmetry; apply N.eqb_neq; lia).
  replace (c =? 43) with false by (symmetry; apply N.eqb_neq; lia).
  cbn [orb]. unfold isUnsignedDecimalLiteral.
  rewrite (span_all _ _ Hall). cbn [isExponentPart].
  rewrite orb_true_r. reflexivity.
Qed.

(** ** validateTransaction *)

Lemma txFromIsInvalid_false_iff (v : option jsstring) :
  fromIsInvalid v = false <-> exists a, v = Some a /\ isValidAddress a = true.
Proof.
  unfold fromIsInvalid. split.
  - intros H. apply orb_false_iff in H. destruct H as [_ H].
    apply negb_false_iff in H.
    destruct v as [a |]; [| discriminate]. exists a. split; [reflexivity | exact H].
  - intros (a & -> & Ha). destruct a as [| c a]; [discriminate Ha |].
    cbn [truthyField negb orb]. rewrite Ha. reflexivity.
Qed.

Lemma valid_address_not_0x (a : jsstring) :
  isValidAddress a = true -> KeyringController.jsstring_eqb a (js "0x") = false.
Proof.
  intros Ha. destruct (KeyringController.jsstring_eqb a (js "0x")) eqn:E;
    [| reflexivity].
  apply KeyringProps.jsstring_eqb_true_iff in E. subst a. discriminate Ha.
Qed.

(** The two ways through the branches on [to]. *)
Lemma checkTo_Normal (t t' : Transaction) :
  checkTo t = Normal t' <->
  (t' = t /\ exists a, to t = Some a /\ isValidAddress a = true) \/
  (t' = deleteTo t /\ truthyField (data t) = true /\
   (to t = None \/ to t = Some (js "0x"))).
Proof.
  unfold checkTo. split.
  - destruct (to t) as [a |] eqn:Hto.
    + destruct (KeyringController.jsstring_eqb a (js "0x")) eqn:E.
      * apply KeyringProps.jsstring_eqb_true_iff in E. subst a.
        destruct (truthyField (data t)); [| discriminate].
        intros H. inversion H. right. repeat split. right. reflexivity.
      * destruct (isValidAddress a) eqn:Ha; [| discriminate].
        intros H. inversion H. subst t'. left. split; [reflexivity |].
        exists a. split; [reflexivity | exact Ha].
    + destruct (truthyField (data t)); [| discriminate].
      intros H. inversion H. right. repeat split. left. reflexivity.
  - intros [[-> (a & Hto & Ha)] | (-> & Hdata & [Hto | Hto])]; rewrite Hto.
    + rewrite (valid_address_not_0x a Ha), Ha. reflexivity.
    + rewrite Hdata. reflexivity.
    + cbn. rewrite Hdata. reflexivity.
Qed.

Lemma checkTo_value (t t' : Transaction) :
  checkTo t = Normal t' -> value t' = value t.
Proof.
  intros H. apply checkTo_Normal in H.
  destruct H as [[-> _] | [-> _]]; reflexivity.
Qed.

Lemma checkValue_Normal (v : jsstring) :
  checkValue v = Normal tt <->
  existsb (N.eqb 45) v = false /\ existsb (N.eqb 46) v = false /\
  isSafeParsedInteger (parseInt10 v) = true /\ toNumberIsNaN v = false.
Proof.
  unfold checkValue. split.
  - destruct (existsb (N.eqb 45) v); [discriminate |].
    destruct (existsb (N.eqb 46) v); [discriminate |].
    destruct (isSafeParsedInteger (parseInt10 v)); [| discriminate].
    destruct (toNumberIsNaN v); [discriminate |].
    intros _. repeat split.
  - intros (-> & -> & -> & ->). reflexivity.
Qed.

(** A string with no minus sign is not parsed to a negative integer. *)
Lemma parseInt10_nonneg (v : jsstring) (n : Z) :
  existsb (N.eqb 45) v = false -> parseInt10 v = Some n -> (0 <= n)%Z.
Proof.
  intros Hminus. apply existsb_eqb_false_inv in Hminus.
  unfold parseInt10, trimStart.
  destruct (dropWhile BN.isWhitespace v) as [| c rest] eqn:Hs.
  - cbn [span fst]. discriminate.
  - destruct (N.eqb_spec c 45) as [-> | Hc].
    + exfalso. apply Hminus. apply (in_dropWhile BN.isWhitespace).
      rewrite Hs. left. reflexivity.
    + assert (Hpos : forall body : jsstring,
                match fst (span isDecimalDigit body) with
                | [] => None
                | digits => Some (Z.of_N (decimalValue digits))
                end = Some n -> (0 <= n)%Z).
      { intros body. destruct (fst (span isDecimalDigit body)); [discriminate |].
        intros H. inversion H. lia. }
      destruct (c =? 43); apply Hpos.
Qed.

Lemma validateTransaction_unfold (t : Transaction) :
  fromIsInvalid (from t) = false ->
  forall t', checkTo t = Normal t' ->
  validateTransaction t =
  match value t with
  | None => Normal t'
  | Some v =>
      match checkValue v with
      | Throw e => Throw e
      | Normal _ => Normal t'
      end
  end.
Proof.
  intros Hfrom t' Hto. unfold validateTransaction.
  rewrite Hfrom, Hto, (checkTo_value t t' Hto). reflexivity.
Qed.

(** X7: when [validateTransaction] returns, [from] is a valid address; the
    transaction is unchanged with a valid address as [to], or [to] was
    missing or ['0x'], [data] is not empty and [to] has been deleted; and a
    [value], when there is one, has no minus sign and no dot, converts to a
    number and is read by [parseInt] as an integer from 0 to [2^53 - 1]. *)
Theorem validateTransaction_accepted (t t' : Transaction) :
  validateTransaction t = Normal t' ->
  (exists a, from t = Some a /\ isValidAddress a = true) /\
  ((t' = t /\ exists a, to t = Some a /\ isValidAddress a = true) \/
   (t' = deleteTo t /\ truthyField (data t) = true /\
    (to t = None \/ to t = Some (js "0x")))) /\
  (forall v, value t = Some v ->
     existsb (N.eqb 45) v = false /\ existsb (N.eqb 46) v = false /\
     toNumberIsNaN v = false /\
     exists n, parseInt10 v = Some n /\ (0 <= n <= 9007199254740991)%Z).
Proof.
  intros H. unfold validateTransaction in H.
  destruct (fromIsInvalid (from t)) eqn:Hfrom; [discriminate |].
  destruct (checkTo t) as [t1 | e] eqn:Hto; [| discriminate].
  rewrite (checkTo_value t t1 Hto) in H.
  assert (Ht1 : t1 = t' /\
                forall v, value t = Some v -> checkValue v = Normal tt).
  { destruct (value t) as [v |].
    - destruct (checkValue v) as [[] | e] eqn:Hv; [| discriminate].
      inversion H. split; [reflexivity |].
      intros v' Hv'. inversion Hv'. subst v'. exact Hv.
    - inversion H. split; [reflexivity | discriminate]. }
  destruct Ht1 as [-> Hvalue].
  split; [apply txFromIsInvalid_false_iff; exact Hfrom |].
  split; [apply checkTo_Normal; exact Hto |].
  intros v Hv. apply Hvalue, checkValue_Normal in Hv.
  destruct Hv as (Hminus & Hdot & Hsafe & Hnan).
  repeat split; try assumption.
  destruct (parseInt10 v) as [n |] eqn:Hparse; [| discriminate Hsafe].
  exists n. split; [reflexivity |].
  pose proof (parseInt10_nonneg v n Hminus Hparse) as Hn.
  cbn [isSafeParsedInteger] in Hsafe. apply Z.leb_le in Hsafe. lia.
Qed.

Lemma validateTransaction_accepted_witness :
  (exists a, from testTransaction = Some a /\ isValidAddress a = true) /\
  ((testTransaction = testTransaction /\
    exists a, to testTransaction = Some a /\ isValidAddress a = true) \/
   (testTransaction = deleteTo testTransaction /\
    truthyField (data testTransaction) = true /\
    (to testTransaction = None \/ to testTransaction = Some (js "0x")))) /\
  (forall v, value testTransaction = Some v ->
     existsb (N.eqb 45) v = false /\ existsb (N.eqb 46) v = false /\
     toNumberIsNaN v = false /\
     exists n, parseInt10 v = Some n /\ (0 <= n <= 9007199254740991)%Z).
Proof.
  apply (validateTransaction_accepted testTransaction testTransaction).
  vm_compute. reflexivity.
Defined.

(** X8: for a transaction whose [from] and [to] pass and whose [value] is a
    string of decimal digits, [validateTransaction] returns if and only if
    the number is at most [2^53 - 1] = 9007199254740991. *)
Theorem validateTransaction_decimal_value (t t' : Transaction)
    (digits : jsstring) :
  fromIsInvalid (from t) = false ->
  checkTo t = Normal t' ->
  value t = Some digits ->
  digits <> [] ->
  forallb isDecimalDigit digits = true ->
  (validateTransaction t = Normal t' <->
   decimalValue digits <= 9007199254740991).
Proof.
  intros Hfrom Hto Hvalue Hne Hall.
  rewrite (validateTransaction_unfold t Hfrom t' Hto), Hvalue.
  assert (Hcheck : checkValue digits = Normal tt <->
                   decimalValue digits <= 9007199254740991).
  { rewrite checkValue_Normal.
    rewrite (parseInt10_digits digits Hne Hall).
    rewrite (toNumberIsNaN_digits digits Hne Hall).
    cbn [isSafeParsedInteger]. rewrite Z.leb_le.
    assert (Hno : forall k, ~ (48 <= k <= 57) -> existsb (N.eqb k) digits = false).
    { intros k Hk. apply existsb_eqb_false. intros c Hc ->.
      apply Hk. apply isDecimalDigit_range.
      rewrite forallb_forall in Hall. apply Hall. exact Hc. }
    rewrite (Hno 45) by lia. rewrite (Hno 46) by lia.
    split.
    - intros (_ & _ & H & _). lia.
    - intros H. repeat split. lia. }
  destruct (checkValue digits) as [[] | e].
  - split; [intros _; apply Hcheck; reflexivity | reflexivity].
  - split; [discriminate |].
    intros H. apply Hcheck in H. discriminate H.
Qed.

Lemma validateTransaction_decimal_value_witness :
  validateTransaction
    (mkTransaction None None
       (Some (js "0x51253087e6f8358b5f10c0a94315d69db3357859")) None None None
       (Some (js "0x51253087e6f8358b5f10c0a94315d69db3357859"))
       (Some (js "9007199254740991")))
  = Normal
      (mkTransaction None None
         (Some (js "0x51253087e6f8358b5f10c0a94315d69db3357859")) None None None
         (Some (js "0x51253087e6f8358b5f10c0a94315d69db3357859"))
         (Some (js "9007199254740991")))
  <-> decimalValue (js "9007199254740991") <= 9007199254740991.
Proof.
  apply (validateTransaction_decimal_value _ _ (js "9007199254740991")).
  - reflexivity.
  - reflexivity.
  - reflexivity.
  - discriminate.
  - reflexivity.
Defined.

(** X9: for a transaction whose [from] and [to] pass, a [value] that is
    ["0x"] followed by hex digits is accepted whatever its size:
    [parseInt(value, 10)] stops at the [x] and reads 0. *)
Theorem validateTransaction_hex_value (t t' : Transaction) (digits : jsstring) :
  fromIsInvalid (from t) = false ->
  checkTo t = Normal t' ->
  value t = Some (js "0x" ++ digits) ->
  digits <> [] ->
  forallb isHexDigit digits = true ->
  validateTransaction t = Normal t' /\
  parseInt10 (js "0x" ++ digits) = Some 0%Z.
Proof.
  intros Hfrom Hto Hvalue Hne Hall.
  rewrite (validateTransaction_unfold t Hfrom t' Hto), Hvalue.
  assert (Hparse : parseInt10 (js "0x" ++ digits) = Some 0%Z) by reflexivity.
  split; [| exact Hparse].
  assert (Hcheck : checkValue (js "0x" ++ digits) = Normal tt).
  { apply checkValue_Normal.
    assert (Hno : forall k, k <> 48 -> k <> 120 -> isHexDigit k = false ->
                            existsb (N.eqb k) (js "0x" ++ digits) = false).
    { intros k H0 Hx Hk. apply existsb_eqb_false. intros c Hc ->.
      change (js "0x" ++ digits) with (48 :: 120 :: digits) in Hc.
      destruct Hc as [E | [E | Hc]]; [congruence | congruence |].
      rewrite forallb_forall in Hall. rewrite (Hall k Hc) in Hk. discriminate. }
    split; [apply Hno; [discriminate | discriminate | reflexivity] |].
    split; [apply Hno; [discriminate | discriminate | reflexivity] |].
    split; [rewrite Hparse; reflexivity |].
    unfold toNumberIsNaN.
    rewrite trim_no_whitespace
      by (change (js "0x" ++ digits) with (48 :: 120 :: digits);
          cbn [forallb]; rewrite (hex_digits_no_whitespace digits Hall);
          reflexivity).
    change (js "0x" ++ digits) with (48 :: 120 :: digits).
    cbn [N.eqb orb]. change ((48 =? 43) || (48 =? 45)) with false. cbv iota.
    assert (Hlit : isNonDecimalIntegerLiteral (48 :: 120 :: digits) = true).
    { unfold isNonDecimalIntegerLiteral.
      change (48 =? 48) with true. change ((120 =? 120) || (120 =? 88)) with true.
      cbv iota. cbn [andb]. destruct digits as [| d ds]; [contradiction |].
      exact Hall. }
    rewrite Hlit, orb_true_r. reflexivity. }
  rewrite Hcheck. reflexivity.
Qed.

Lemma validateTransaction_hex_value_witness :
  validateTransaction
    (mkTransaction None None
       (Some (js "0x51253087e6f8358b5f10c0a94315d69db3357859")) None None None
       (Some (js "0x51253087e6f8358b5f10c0a94315d69db3357859"))
       (Some (js "0x" ++ js "ffffffffffffffffffffffffffffffff")))
  = Normal
      (mkTransaction None None
         (Some (js "0x51253087e6f8358b5f10c0a94315d69db3357859")) None None None
         (Some (js "0x51253087e6f8358b5f10c0a94315d69db3357859"))
         (Some (js "0x" ++ js "ffffffffffffffffffffffffffffffff"))) /\
  parseInt10 (js "0x" ++ js "ffffffffffffffffffffffffffffffff") = Some 0%Z.
Proof.
  apply (validateTransaction_hex_value _ _ (js "ffffffffffffffffffffffffffffffff")).
  - reflexivity.
  - reflexivity.
  - reflexivity.
  - discriminate.
  - reflexivity.
Defined.

(** One more than the largest safe integer is refused. *)
Example validateTransaction_value_too_large :
  validateTransaction
    (mkTransaction None None
       (Some (js "0x51253087e6f8358b5f10c0a94315d69db3357859")) None None None
       (Some (js "0x51253087e6f8358b5f10c0a94315d69db3357859"))
       (Some (js "9007199254740992")))
  = Throw (invalidValueError (js "9007199254740992")
             (js " number must be a valid number.")).
Proof. reflexivity. Qed.

(** A transaction that creates a contract: without [data] it is refused,
    with [data] the ['0x'] of [to] is deleted. *)
Example validateTransaction_contract_creation :
  (exists e,
     validateTransaction
       (mkTransaction None None
          (Some (js "0x51253087e6f8358b5f10c0a94315d69db3357859")) None None
          None (Some (js "0x")) None) = Throw e) /\
  validateTransaction
    (mkTransaction None (Some (js "0x6060"))
       (Some (js "0x51253087e6f8358b5f10c0a94315d69db3357859")) None None None
       (Some (js "0x")) None)
  = Normal
      (mkTransaction None (Some (js "0x6060"))
         (Some (js "0x51253087e6f8358b5f10c0a94315d69db3357859")) None None
         None None None).
Proof. split; [eexists |]; reflexivity. Qed.

(** ** normalizeTransaction *)

Lemma asciiToLowerCase_prefixed (s : jsstring) :
  isHexPrefixed s = true -> isHexPrefixed (asciiToLowerCase s) = true.
Proof.
  destruct s as [| c0 [| c1 s]]; try discriminate.
  cbn [isHexPrefixed asciiToLowerCase map]. intros H.
  apply andb_true_iff in H. destruct H as [H0 H1].
  apply N.eqb_eq in H0. apply N.eqb_eq in H1. subst. reflexivity.
Qed.

Lemma asciiToLowerCase_idempotent (s : jsstring) :
  asciiToLowerCase (asciiToLowerCase s) = asciiToLowerCase s.
Proof.
  unfold asciiToLowerCase. rewrite map_map. apply map_ext. intros c.
  unfold asciiLowerChar.
  destruct ((65 <=? c) && (c <=? 90)) eqn:H; [| rewrite H; reflexivity].
  apply andb_true_iff in H. destruct H as [H1 H2].
  apply N.leb_le in H1. apply N.leb_le in H2.
  replace (c + 32 <=? 90) with false by (symmetry; apply N.leb_gt; lia).
  rewrite andb_false_r. reflexivity.
Qed.

Section NormalizeProps.

Variable toLowerCase : jsstring -> jsstring.

(** Lower case keeps the prefix, and lower case of lower case is lower
    case. *)
Hypothesis lower_prefixed :
  forall s, isHexPrefixed s = true -> isHexPrefixed (toLowerCase s) = true.
Hypothesis lower_idempotent :
  forall s, toLowerCase (toLowerCase s) = toLowerCase s.

Lemma isHexPrefixed_truthy (s : jsstring) :
  isHexPrefixed s = true -> truthyField (Some s) = true.
Proof. destruct s; [discriminate | reflexivity]. Qed.

Lemma lower_add_prefixed (s : jsstring) :
  isHexPrefixed (toLowerCase (addHexPrefix s)) = true.
Proof. apply lower_prefixed. apply HelpersProps.addHexPrefix_prefixed. Qed.

Lemma lower_add_idempotent (s : jsstring) :
  toLowerCase (addHexPrefix (toLowerCase (addHexPrefix s)))
  = toLowerCase (addHexPrefix s).
Proof.
  rewrite (HelpersProps.addHexPrefix_of_prefixed _ (lower_add_prefixed s)).
  apply lower_idempotent.
Qed.

Lemma addHexPrefix_idempotent (s : jsstring) :
  addHexPrefix (addHexPrefix s) = addHexPrefix s.
Proof.
  apply HelpersProps.addHexPrefix_of_prefixed.
  apply HelpersProps.addHexPrefix_prefixed.
Qed.

Lemma normalizeField_idempotent (normalizer : jsstring -> jsstring)
    (v : option jsstring) :
  (forall s, isHexPrefixed (normalizer s) = true) ->
  (forall s, normalizer (normalizer s) = normalizer s) ->
  normalizeField normalizer (normalizeField normalizer v)
  = normalizeField normalizer v.
Proof.
  intros Hpre Hidem.
  destruct v as [[| c s] |]; try reflexivity.
  change (normalizeField normalizer (Some (c :: s)))
    with (Some (normalizer (c :: s))).
  unfold normalizeField.
  rewrite (isHexPrefixed_truthy _ (Hpre (c :: s))). cbn [option_map].
  rewrite Hidem. reflexivity.
Qed.

Lemma normalizeField_prefixed (normalizer : jsstring -> jsstring)
    (v : option jsstring) (s : jsstring) :
  (forall x, isHexPrefixed (normalizer x) = true) ->
  normalizeField normalizer v = Some s -> isHexPrefixed s = true.
Proof.
  intros Hpre. unfold normalizeField.
  destruct v as [[| c x] |]; try discriminate.
  cbn [truthyField option_map]. intros H. inversion H. apply Hpre.
Qed.

(** X10: normalising a normalised transaction changes nothing. *)
Theorem normalizeTransaction_idempotent (transaction : Transaction) :
  normalizeTransaction toLowerCase (normalizeTransaction toLowerCase transaction)
  = normalizeTransaction toLowerCase transaction.
Proof.
  unfold normalizeTransaction.
  cbn [data from gas gasPrice nonce to value].
  rewrite !(normalizeField_idempotent addHexPrefix)
    by (try apply HelpersProps.addHexPrefix_prefixed;
        apply addHexPrefix_idempotent).
  rewrite (normalizeField_idempotent
             (fun v => toLowerCase (addHexPrefix v)) (to transaction)
             lower_add_prefixed lower_add_idempotent).
  destruct (from transaction) as [[| c s] |]; try reflexivity.
  change (if truthyField (Some (c :: s))
          then option_map (fun v => toLowerCase (addHexPrefix v)) (Some (c :: s))
          else Some [])
    with (Some (toLowerCase (addHexPrefix (c :: s)))).
  rewrite (isHexPrefixed_truthy _ (lower_add_prefixed (c :: s))).
  cbn [option_map]. rewrite lower_add_idempotent. reflexivity.
Qed.

(** X11: in a normalised transaction every field that is set starts with
    ["0x"], except [from], which is always set and is empty when the
    transaction had no [from]; [chainId] is not carried over; and a field
    is set exactly when it was set and not empty. *)
Theorem normalizeTransaction_fields (transaction : Transaction) :
  chainId (normalizeTransaction toLowerCase transaction) = None /\
  (exists s,
     from (normalizeTransaction toLowerCase transaction) = Some s /\
     (if truthyField (from transaction) then isHexPrefixed s = true
      else s = [])) /\
  (forall field : Transaction -> option jsstring,
     field = data \/ field = gas \/ field = gasPrice \/ field = nonce \/
     field = to \/ field = value ->
     (forall s,
        field (normalizeTransaction toLowerCase transaction) = Some s ->
        isHexPrefixed s = true) /\
     (field (normalizeTransaction toLowerCase transaction) = None <->
      truthyField (field transaction) = false)).
Proof.
  split; [reflexivity |]. split.
  - cbn [normalizeTransaction from].
    destruct (from transaction) as [[| c s] |]; cbn [truthyField option_map].
    + exists []. split; reflexivity.
    + eexists. split; [reflexivity | apply lower_add_prefixed].
    + exists []. split; reflexivity.
  - assert (Hset : forall normalizer v,
              normalizeField normalizer v = None <-> truthyField v = false).
    { intros normalizer v. unfold normalizeField.
      destruct v as [[| c s] |]; cbn [truthyField option_map];
        split; try reflexivity; discriminate. }
    intros field [-> | [-> | [-> | [-> | [-> | ->]]]]];
      cbn [normalizeTransaction data gas gasPrice nonce to value];
      (split; [| apply Hset]); intros s Hs;
      (apply (normalizeField_prefixed _ _ _ HelpersProps.addHexPrefix_prefixed Hs)
       || apply (normalizeField_prefixed _ _ _ lower_add_prefixed Hs)).
Qed.

End NormalizeProps.

Lemma normalizeTransaction_idempotent_witness :
  normalizeTransaction asciiToLowerCase
    (normalizeTransaction asciiToLowerCase testTransaction)
  = normalizeTransaction asciiToLowerCase testTransaction.
Proof.
  exact (normalizeTransaction_idempotent asciiToLowerCase
           asciiToLowerCase_prefixed asciiToLowerCase_idempotent
           testTransaction).
Defined.

Lemma normalizeTransaction_fields_witness :
  chainId (normalizeTransaction asciiToLowerCase testTransaction) = None /\
  (exists s,
     from (normalizeTransaction asciiToLowerCase testTransaction) = Some s /\
     (if truthyField (from testTransaction) then isHexPrefixed s = true
      else s = [])) /\
  (forall field : Transaction -> option jsstring,
     field = data \/ field = gas \/ field = gasPrice \/ field = nonce \/
     field = to \/ field = value ->
     (forall s,
        field (normalizeTransaction asciiToLowerCase testTransaction) = Some s ->
        isHexPrefixed s = true) /\
     (field (normalizeTransaction asciiToLowerCase testTransaction) = None <->
      truthyField (field testTransaction) = false)).
Proof.
  exact (normalizeTransaction_fields asciiToLowerCase
           asciiToLowerCase_prefixed testTransaction).
Defined.

(** The transaction of the test, normalised: [gas] gets its prefix, the
    address of [from] its lower case, [chainId] is gone. *)
Example normalizeTransaction_example :
  normalizeTransaction asciiToLowerCase testTransaction
  = mkTransaction None (Some (js "0x1"))
      (Some (js "0xb97c80fab7a3793bbe746864db80d236f1345ea7"))
      (Some (js "0x5108")) (Some (js "0x5108")) None
      (Some (js "0x51253087e6f8358b5f10c0a94315d69db3357859"))
      (Some (js "0x5208")).
Proof. reflexivity. Qed.

End TransactionProps.
